(** * bb-django-articles: the article model ([articles/models.py])

    A shallow embedding of [Tag], [ArticleManager] and [Article] and of the
    collaborators they call, followed by the properties of the
    content-rendering and link-annotation pipeline.

    Modelling conventions.
    - A Python string is a [string] of 8-bit code units; [str] methods have
      their Python 2 byte-string meaning ([strip] trims the six ASCII
      white-space characters, [lower] maps [A-Z] only).
    - A timestamp ([datetime]) is an integer number of clock ticks.
    - [None] is [option]'s [None]; truthiness is written out
      ([Py.truthy], [Article.truthy_id]).
    - The database, the cache, the network and the clock are fields of one
      [World]; methods run in the monad [M] of world-passing computations
      that may raise a Python exception.  The instance ([self]) is passed in
      and handed back. *)

From Stdlib Require Import ZArith Ascii String List Bool Lia.
From stdpp Require Import base option gmap strings list fin_maps sorting.

Local Open Scope string_scope.
Local Open Scope list_scope.
Local Open Scope Z_scope.

(** ** Python built-ins used by the module *)

Module Py.

(** [string.whitespace] for byte strings. *)
Definition isspace (c : ascii) : bool :=
  let n := nat_of_ascii c in
  ((9 <=? n)%nat && (n <=? 13)%nat) || (n =? 32)%nat.

Definition isupper (c : ascii) : bool :=
  let n := nat_of_ascii c in (65 <=? n)%nat && (n <=? 90)%nat.

Definition islower (c : ascii) : bool :=
  let n := nat_of_ascii c in (97 <=? n)%nat && (n <=? 122)%nat.

Definition isdigit (c : ascii) : bool :=
  let n := nat_of_ascii c in (48 <=? n)%nat && (n <=? 57)%nat.

Definition lower_char (c : ascii) : ascii :=
  if isupper c then ascii_of_nat (nat_of_ascii c + 32) else c.

(** [s.lower()] *)
Fixpoint lower (s : string) : string :=
  match s with
  | EmptyString => EmptyString
  | String c s' => String (lower_char c) (lower s')
  end.

(** [s.replace(old, new)] for one-character [old] and [new]. *)
Fixpoint replace (old new : ascii) (s : string) : string :=
  match s with
  | EmptyString => EmptyString
  | String c s' =>
      String (if Ascii.eqb c old then new else c) (replace old new s')
  end.

Fixpoint lstrip (s : string) : string :=
  match s with
  | EmptyString => EmptyString
  | String c s' => if isspace c then lstrip s' else s
  end.

Fixpoint rstrip (s : string) : string :=
  match s with
  | EmptyString => EmptyString
  | String c s' =>
      match rstrip s' with
      | EmptyString => if isspace c then EmptyString else String c EmptyString
      | r => String c r
      end
  end.

(** [s.strip()] *)
Definition strip (s : string) : string := rstrip (lstrip s).

(** [len(s)] *)
Definition len (s : string) : Z := Z.of_nat (String.length s).

(** [s.split(sep)] for a one-character separator: never empty. *)
Fixpoint split (sep : ascii) (s : string) : list string :=
  match s with
  | EmptyString => [EmptyString]
  | String c s' =>
      if Ascii.eqb c sep then EmptyString :: split sep s'
      else match split sep s' with
           | w :: ws => String c w :: ws
           | [] => [String c EmptyString]
           end
  end.

(** [sep.join(l)] *)
Fixpoint join (sep : string) (l : list string) : string :=
  match l with
  | [] => EmptyString
  | [x] => x
  | x :: l' => x +:+ sep +:+ join sep l'
  end.

(** [l[:n]], with Python's meaning of a negative bound. *)
Definition slice_to {A} (n : Z) (l : list A) : list A :=
  if 0 <=? n then take (Z.to_nat n) l
  else take (length l - Z.to_nat (- n))%nat l.

(** Truth value of a string: empty is false. *)
Definition truthy (s : string) : bool :=
  match s with EmptyString => false | _ => true end.

(** Truth value of a value that may be [None]. *)
Definition truthy_opt (o : option string) : bool :=
  match o with Some s => truthy s | None => false end.

End Py.

(** ** The three regular expressions

    Each compiled pattern is embedded as the matcher the [re] engine runs
    for it: lazy quantifiers try the shortest extension first and backtrack,
    [re.I] compares ASCII letters after lowering, and [.] stops at a line
    feed ([re.M] only changes [^] and [$], which do not occur). *)

Module Re.

Definition newline : ascii := ascii_of_nat 10.

(** A literal under [re.I]: returns the rest of the subject. *)
Fixpoint lit (p s : string) : option string :=
  match p, s with
  | EmptyString, _ => Some s
  | String a p', String c s' =>
      if Ascii.eqb (Py.lower_char a) (Py.lower_char c) then lit p' s' else None
  | String _ _, EmptyString => None
  end.

(** [.*?] followed by the continuation [k]: [k] receives the text the
    quantifier consumed (in reverse) and the rest of the subject. *)
Fixpoint lazy_dots {R} (k : string -> string -> option R)
         (acc : string) (s : string) : option R :=
  match k acc s with
  | Some r => Some r
  | None =>
      match s with
      | EmptyString => None
      | String c s' =>
          if Ascii.eqb c newline then None
          else lazy_dots k (String c acc) s'
      end
  end.

Fixpoint rev_onto (a b : string) : string :=
  match a with
  | EmptyString => b
  | String c a' => rev_onto a' (String c b)
  end.

Definition unrev (acc : string) : string := rev_onto acc EmptyString.

(** The negated, case-insensitive class of [TAG_RE]:
    [[^a-z0-9\-_\+\:\.]]. *)
Definition tag_char (c : ascii) : bool :=
  Py.islower c || Py.isdigit c ||
  Ascii.eqb c "-" || Ascii.eqb c "_" || Ascii.eqb c "+" ||
  Ascii.eqb c ":" || Ascii.eqb c ".".

Definition TAG_RE_class (c : ascii) : bool := negb (tag_char (Py.lower_char c)).

(** [TAG_RE.sub(repl, s)] for [TAG_RE = [^...]?]: the pattern matches at
    every position, one character of the class or else the empty string;
    an empty match right behind the previous match is not replaced.
    [adj] says that the previous match ended at the current position. *)
Fixpoint TAG_RE_sub_from (repl : string) (adj : bool) (s : string) : string :=
  match s with
  | EmptyString => if adj then EmptyString else repl
  | String c s' =>
      if TAG_RE_class c then repl +:+ TAG_RE_sub_from repl true s'
      else (if adj then EmptyString else repl)
             +:+ String c (TAG_RE_sub_from repl false s')
  end.

Definition TAG_RE_sub (repl s : string) : string := TAG_RE_sub_from repl false s.

Definition quote : string := String (ascii_of_nat 34) EmptyString.

(** One attempt of [LINK_RE = <a.*?href="(.*?)".*?>(.*?)</a>] at the
    start of [s]: the two groups and the rest of the subject. *)
Definition LINK_RE_match (s : string) : option (string * string * string) :=
  s1 ← lit "<a" s;
  lazy_dots (fun _ s2 =>
    s3 ← lit ("href=" +:+ quote) s2;
    lazy_dots (fun g1 s4 =>
      s5 ← lit quote s4;
      lazy_dots (fun _ s6 =>
        s7 ← lit ">" s6;
        lazy_dots (fun g2 s8 =>
          s9 ← lit "</a>" s8;
          Some (unrev g1, unrev g2, s9))
        EmptyString s7)
      EmptyString s5)
    EmptyString s3)
  EmptyString s1.

(** [LINK_RE.finditer(s)]: the scan tries each start position from the
    left and resumes where a match ended; [skip] counts the characters
    of the last match still to be passed. *)
Fixpoint LINK_RE_finditer_from (skip : nat) (s : string) : list (string * string) :=
  match skip, s with
  | _, EmptyString => []
  | S k, String _ s' => LINK_RE_finditer_from k s'
  | O, String _ s' =>
      match LINK_RE_match s with
      | Some (g1, g2, rest) =>
          (g1, g2) ::
          LINK_RE_finditer_from (String.length s - String.length rest - 1) s'
      | None => LINK_RE_finditer_from 0 s'
      end
  end.

Definition LINK_RE_finditer (s : string) : list (string * string) :=
  LINK_RE_finditer_from 0 s.

(** One attempt of [TITLE_RE = <title>(.*?)</title>]. *)
Definition TITLE_RE_match (s : string) : option string :=
  s1 ← lit "<title>" s;
  lazy_dots (fun g s2 => _ ← lit "</title>" s2; Some (unrev g)) EmptyString s1.

(** [TITLE_RE.search(s)], reduced to group 1 of the match. *)
Fixpoint TITLE_RE_search (s : string) : option string :=
  match TITLE_RE_match s with
  | Some g => Some g
  | None =>
      match s with
      | EmptyString => None
      | String _ s' => TITLE_RE_search s'
      end
  end.

End Re.

(** ** [base64.encodestring] *)

Module Base64.

Definition alphabet : string :=
  "ABCDEFGHIJKLMNOPQRSTUVWXYZabcdefghijklmnopqrstuvwxyz0123456789+/".

Definition digit (n : N) : ascii :=
  match String.get (N.to_nat n) alphabet with
  | Some c => c
  | None => "="%char
  end.

(** [binascii.b2a_base64] without the final line feed. *)
Fixpoint b2a (s : string) : string :=
  match s with
  | EmptyString => EmptyString
  | String a EmptyString =>
      let x := N_of_ascii a in
      String (digit (N.shiftr x 2))
        (String (digit (N.shiftl (N.land x 3) 4)) "==")
  | String a (String b EmptyString) =>
      let x := N_of_ascii a in
      let y := N_of_ascii b in
      String (digit (N.shiftr x 2))
        (String (digit (N.lor (N.shiftl (N.land x 3) 4) (N.shiftr y 4)))
           (String (digit (N.shiftl (N.land y 15) 2)) "="))
  | String a (String b (String c r)) =>
      let x := N_of_ascii a in
      let y := N_of_ascii b in
      let z := N_of_ascii c in
      String (digit (N.shiftr x 2))
        (String (digit (N.lor (N.shiftl (N.land x 3) 4) (N.shiftr y 4)))
           (String (digit (N.lor (N.shiftl (N.land y 15) 2) (N.shiftr z 6)))
              (String (digit (N.land z 63)) (b2a r))))
  end.

Definition MAXBINSIZE : nat := 57.

(** The input cut into pieces of [MAXBINSIZE] bytes; [room] is what the
    piece under construction (held reversed in [cur]) can still take. *)
Fixpoint pieces_from (room : nat) (cur : string) (s : string) : list string :=
  match s with
  | EmptyString =>
      match cur with
      | EmptyString => []
      | _ => [Re.unrev cur]
      end
  | String c s' =>
      match room with
      | S (S r) => pieces_from (S r) (String c cur) s'
      | _ => Re.unrev (String c cur) :: pieces_from MAXBINSIZE EmptyString s'
      end
  end.

Definition encodestring (s : string) : string :=
  String.concat EmptyString
    (map (fun piece => b2a piece +:+ String Re.newline EmptyString)
         (pieces_from MAXBINSIZE EmptyString s)).

End Base64.

(** ** Tag *)

Module Tag.

Record t := { name : string }.

(** [Tag.clean] *)
Definition clean (name : string) : string :=
  let name := Py.replace " " "-" name in
  let name := Re.TAG_RE_sub "" name in
  Py.strip (Py.lower name).

End Tag.

(** ** Collaborators *)

(** [django.conf.settings], as far as the module reads it. *)
Class Settings := {
  WORD_LIMIT : Z;          (* ARTICLES_TEASER_LIMIT, 75 when unset *)
  SITE_ID : Z              (* the site [Site.objects.get_current()] returns *)
}.

(** [django.contrib.markup.templatetags.markup]: one converter per dialect. *)
Class Markup := {
  markdown : string -> string;
  restructuredtext : string -> string;
  textile : string -> string
}.

Record User := { username : string }.

(** The columns of an article's row. *)
Record Row := mkRow {
  id : option Z;
  title : string;
  slug : string;
  author : User;
  keywords : string;
  description : string;
  markup : string;
  content : string;
  rendered_content : string;
  publish_date : Z;
  expiration_date : option Z;
  is_active : bool;
  login_required : bool;
  use_addthis_button : bool;
  addthis_use_author : bool;
  addthis_username : option string
}.

Definition set_id (v : option Z) (r : Row) : Row :=
  mkRow v (title r) (slug r) (author r) (keywords r) (description r)
    (markup r) (content r) (rendered_content r) (publish_date r)
    (expiration_date r) (is_active r) (login_required r)
    (use_addthis_button r) (addthis_use_author r) (addthis_username r).

Definition set_keywords (v : string) (r : Row) : Row :=
  mkRow (id r) (title r) (slug r) (author r) v (description r)
    (markup r) (content r) (rendered_content r) (publish_date r)
    (expiration_date r) (is_active r) (login_required r)
    (use_addthis_button r) (addthis_use_author r) (addthis_username r).

Definition set_description (v : string) (r : Row) : Row :=
  mkRow (id r) (title r) (slug r) (author r) (keywords r) v
    (markup r) (content r) (rendered_content r) (publish_date r)
    (expiration_date r) (is_active r) (login_required r)
    (use_addthis_button r) (addthis_use_author r) (addthis_username r).

Definition set_rendered_content (v : string) (r : Row) : Row :=
  mkRow (id r) (title r) (slug r) (author r) (keywords r) (description r)
    (markup r) (content r) v (publish_date r)
    (expiration_date r) (is_active r) (login_required r)
    (use_addthis_button r) (addthis_use_author r) (addthis_username r).

Definition set_is_active (v : bool) (r : Row) : Row :=
  mkRow (id r) (title r) (slug r) (author r) (keywords r) (description r)
    (markup r) (content r) (rendered_content r) (publish_date r)
    (expiration_date r) v (login_required r)
    (use_addthis_button r) (addthis_use_author r) (addthis_username r).

Definition set_addthis_username (v : option string) (r : Row) : Row :=
  mkRow (id r) (title r) (slug r) (author r) (keywords r) (description r)
    (markup r) (content r) (rendered_content r) (publish_date r)
    (expiration_date r) (is_active r) (login_required r)
    (use_addthis_button r) (addthis_use_author r) v.

(** Everything outside the instance that the methods read or change. *)
Record World := mkWorld {
  clock : Z;                              (* what [datetime.now()] returns *)
  article_table : list Row;               (* in storage order *)
  article_tags : list (Z * Tag.t);        (* join rows, in insertion order *)
  article_sites : list (Z * Z);           (* join rows: article, site *)
  next_id : Z;                            (* the next automatic key *)
  writes : list Row;                      (* rows written, oldest first *)
  cache : gmap string (string * Z);       (* key to value and timeout *)
  network : nat -> string -> option string; (* answer to the n-th fetch *)
  fetches : nat                           (* fetches made so far *)
}.

Definition with_table (t : list Row) (n : Z) (l : list Row) (w : World) : World :=
  mkWorld (clock w) t (article_tags w) (article_sites w) n l
    (cache w) (network w) (fetches w).

Definition with_sites (s : list (Z * Z)) (w : World) : World :=
  mkWorld (clock w) (article_table w) (article_tags w) s (next_id w) (writes w)
    (cache w) (network w) (fetches w).

Definition with_cache (c : gmap string (string * Z)) (w : World) : World :=
  mkWorld (clock w) (article_table w) (article_tags w) (article_sites w)
    (next_id w) (writes w) c (network w) (fetches w).

Definition with_fetches (n : nat) (w : World) : World :=
  mkWorld (clock w) (article_table w) (article_tags w) (article_sites w)
    (next_id w) (writes w) (cache w) (network w) n.

Definition with_clock (t : Z) (w : World) : World :=
  mkWorld t (article_table w) (article_tags w) (article_sites w)
    (next_id w) (writes w) (cache w) (network w) (fetches w).

(** ** Computations *)

Inductive PyExn := IOError | IndexError | KeyError | ValueError | DoesNotExist.

Inductive Outcome (A : Type) :=
| Return (a : A)
| Raise (e : PyExn).
Arguments Return {A} a.
Arguments Raise {A} e.

Definition M (A : Type) : Type := World -> Outcome A * World.

Definition ret {A} (a : A) : M A := fun w => (Return a, w).

Definition raise {A} (e : PyExn) : M A := fun w => (Raise e, w).

Definition bind {A B} (m : M A) (k : A -> M B) : M B :=
  fun w =>
    match m w with
    | (Return a, w') => k a w'
    | (Raise e, w') => (Raise e, w')
    end.

(** [try: m except: h], with a bare [except]. *)
Definition try_except {A} (m : M A) (h : M A) : M A :=
  fun w =>
    match m w with
    | (Return a, w') => (Return a, w')
    | (Raise _, w') => h w'
    end.

(** [try: m except (e1, e2): h] *)
Definition try_except_only {A} (catch : PyExn -> bool) (m : M A) (h : M A) : M A :=
  fun w =>
    match m w with
    | (Return a, w') => (Return a, w')
    | (Raise e, w') => if catch e then h w' else (Raise e, w')
    end.

Notation "'let*' x ':=' m 'in' k" := (bind m (fun x => k))
  (at level 10, x pattern, m at level 100, k at level 200).

(** [for x in l: body], threading the loop's variables [s]. *)
Fixpoint for_each {A S} (l : list A) (body : A -> S -> M S) (s : S) : M S :=
  match l with
  | [] => ret s
  | x :: l' => let* s' := body x s in for_each l' body s'
  end.

(** [datetime.now()] *)
Definition datetime_now : M Z := fun w => (Return (clock w), w).

(** [cache.get(key)] *)
Definition cache_get (key : string) : M (option string) :=
  fun w => (Return (fst <$> cache w !! key), w).

(** [cache.set(key, value, timeout)] *)
Definition cache_set (key value : string) (timeout : Z) : M unit :=
  fun w => (Return tt, with_cache (<[key := (value, timeout)]> (cache w)) w).

(** [c = urllib.urlopen(url); html = c.read(); c.close()]: the network
    answers with a page or fails. *)
Definition urlopen_read (url : string) : M string :=
  fun w =>
    let w' := with_fetches (S (fetches w)) w in
    match network w (fetches w) url with
    | Some html => (Return html, w')
    | None => (Raise IOError, w')
    end.

(** ** Storage *)

Definition id_eqb (a b : option Z) : bool :=
  match a, b with
  | Some x, Some y => x =? y
  | None, None => true
  | _, _ => false
  end.

(** The table after an [UPDATE] of the rows keyed [pk], or an [INSERT]
    when there is none. *)
Definition store_row (pk : Z) (r : Row) (table : list Row) : list Row :=
  if existsb (fun x => id_eqb (id x) (Some pk)) table
  then map (fun x => if id_eqb (id x) (Some pk) then r else x) table
  else table ++ [r].

(** [super(Article, self).save()]: a row without key is inserted under a
    fresh key, a row with a key replaces the stored row of that key, or is
    inserted when none is stored.  Returns the row as written. *)
Definition Model_save (r : Row) : M Row :=
  fun w =>
    match id r with
    | None =>
        let r' := set_id (Some (next_id w)) r in
        (Return r',
         with_table (article_table w ++ [r']) (next_id w + 1) (writes w ++ [r']) w)
    | Some pk =>
        (Return r,
         with_table (store_row pk r (article_table w)) (next_id w) (writes w ++ [r]) w)
    end.

(** The stored row of key [pk], as a query by key finds it. *)
Definition stored (pk : Z) (w : World) : option Row :=
  head (List.filter (fun x => id_eqb (id x) (Some pk)) (article_table w)).

(** [ORDER BY] on a column: a stable insertion sort. *)
Section OrderBy.
Context {A : Type} (le : A -> A -> bool).

Fixpoint insert_sorted (x : A) (l : list A) : list A :=
  match l with
  | [] => [x]
  | y :: l' => if le x y then x :: l else y :: insert_sorted x l'
  end.

Fixpoint order_by (l : list A) : list A :=
  match l with
  | [] => []
  | x :: l' => insert_sorted x (order_by l')
  end.
End OrderBy.

(** [l[0]] *)
Definition index0 {A} (l : list A) : M A :=
  match l with
  | x :: _ => ret x
  | [] => raise IndexError
  end.

(** [Tag.Meta.ordering = ('name',)] *)
Definition tag_name_le (a b : Tag.t) : bool := String.leb (Tag.name a) (Tag.name b).

(** The tags joined to the article [pk], in the order of their join rows. *)
Definition tags_joined (pk : Z) (w : World) : list Tag.t :=
  map snd (List.filter (fun x => fst x =? pk) (article_tags w)).

(** [self.tags.all()]: the tags joined to the article, in the default
    ordering of [Tag]. *)
Definition tags_all (pk : Z) : M (list Tag.t) :=
  fun w => (Return (order_by tag_name_le (tags_joined pk w)), w).

(** The sites joined to the article [pk]. *)
Definition sites_joined (pk : Z) (w : World) : list Z :=
  map snd (List.filter (fun x => fst x =? pk) (article_sites w)).

(** [self.sites.all()] *)
Definition sites_all (pk : Z) : M (list Z) :=
  fun w => (Return (sites_joined pk w), w).

(** [self.sites = l]: the join rows of the article are replaced. *)
Definition sites_assign (pk : Z) (l : list Z) : M unit :=
  fun w =>
    (Return tt,
     with_sites (List.filter (fun x => negb (fst x =? pk)) (article_sites w)
                 ++ map (fun s => (pk, s)) l) w).

(** ** ArticleManager *)

Module ArticleManager.

(** The filter of [active] at the instant [now]. *)
Definition active_Q (now : Z) (r : Row) : bool :=
  match expiration_date r with
  | None => true
  | Some e => now <=? e
  end
  && (publish_date r <=? now)
  && is_active r.

(** [ArticleManager.active] *)
Definition active : M (list Row) :=
  let* now := datetime_now in
  fun w => (Return (List.filter (active_Q now) (article_table w)), w).

End ArticleManager.

(** ** Article *)

Definition MARKUP_HTML : string := "h".
Definition MARKUP_MARKDOWN : string := "m".
Definition MARKUP_REST : string := "r".
Definition MARKUP_TEXTILE : string := "t".

Module Article.

(** An instance: the row's fields and the three memo attributes. *)
#[local] Unset Elimination Schemes.
Inductive t := mk {
  row : Row;
  _next : option t;
  _previous : option t;
  _teaser : option string
}.
#[local] Set Elimination Schemes.

Definition set_row (r : Row) (self : t) : t :=
  mk r (_next self) (_previous self) (_teaser self).
Definition set_next (a : option t) (self : t) : t :=
  mk (row self) a (_previous self) (_teaser self).
Definition set_previous (a : option t) (self : t) : t :=
  mk (row self) (_next self) a (_teaser self).
Definition set_teaser (s : option string) (self : t) : t :=
  mk (row self) (_next self) (_previous self) s.

(** [if self.id:] *)
Definition truthy_id (i : option Z) : bool :=
  match i with
  | Some n => negb (n =? 0)
  | None => false
  end.

(** [len(s.strip()) == 0] *)
Definition blank (s : string) : bool := Py.len (Py.strip s) =? 0.

Section Methods.
Context `{Settings} `{Markup}.

(** The text [_get_teaser] computes when nothing is memoized. *)
Definition teaser_text (r : Row) : string :=
  let text := if negb (Py.len (Py.strip (description r)) =? 0)
              then description r else rendered_content r in
  let words := Py.split " " text in
  if WORD_LIMIT <? Z.of_nat (length words)
  then Py.join " " (Py.slice_to WORD_LIMIT words) +:+ "..."
  else text.

(** [Article._get_teaser]: the value and the instance afterwards. *)
Definition _get_teaser (self : t) : string * t :=
  if negb (Py.truthy_opt (_teaser self)) then
    let text := teaser_text (row self) in
    (text, set_teaser (Some text) self)
  else (default EmptyString (_teaser self), self).

(** The converter [save] selects. *)
Definition render (r : Row) : string :=
  if String.eqb (markup r) MARKUP_MARKDOWN then markdown (content r)
  else if String.eqb (markup r) MARKUP_REST then restructuredtext (content r)
  else if String.eqb (markup r) MARKUP_TEXTILE then textile (content r)
  else content r.

(** The key of the row a relationship is asked for. *)
Definition pk_of (r : Row) : M Z :=
  match id r with
  | Some pk => ret pk
  | None => raise ValueError
  end.

(** [save], before the first write: the rendering and the AddThis
    user name. *)
Definition prepare (self : t) : t :=
  let self := set_row (set_rendered_content (render (row self)) (row self)) self in
  if use_addthis_button (row self) && addthis_use_author (row self)
     && negb (Py.truthy_opt (addthis_username (row self)))
  then set_row (set_addthis_username (Some (username (author (row self))))
                  (row self)) self
  else self.

(** [save]: "if we don't have keywords, use the tags". *)
Definition fill_keywords (st : t * bool) : M (t * bool) :=
  let (self, requires_save) := st in
  if Py.len (Py.strip (keywords (row self))) =? 0 then
    let* pk := pk_of (row self) in
    let* tags := tags_all pk in
    ret (set_row (set_keywords (Py.join ", " (map Tag.name tags)) (row self)) self,
         true)
  else ret (self, requires_save).

(** [save]: "if we don't have a description, use the teaser". *)
Definition fill_description (st : t * bool) : M (t * bool) :=
  let (self, requires_save) := st in
  if Py.len (Py.strip (description (row self))) =? 0 then
    let (text, self) := _get_teaser self in
    ret (set_row (set_description text (row self)) self, true)
  else ret (self, requires_save).

(** [save]: the current site when the article has none. *)
Definition fill_sites (st : t * bool) : M (t * bool) :=
  let (self, requires_save) := st in
  let* pk := pk_of (row self) in
  let* sites := sites_all pk in
  if negb (Z.of_nat (length sites) =? 0) then ret (self, requires_save)
  else
    let* _ := sites_assign pk [SITE_ID] in
    ret (self, true).

(** [Article.save] *)
Definition save (self : t) : M t :=
  let self := prepare self in
  let* r := Model_save (row self) in
  let self := set_row r self in
  let requires_save := false in
  let* st := fill_keywords (self, requires_save) in
  let* st := fill_description st in
  let* st := fill_sites st in
  let (self, requires_save) := st in
  if requires_save then
    let* r := Model_save (row self) in
    ret (set_row r self)
  else ret self.

(** The first test of [__init__]: expired and still active. *)
Definition expired_and_active (r : Row) (now : Z) : bool :=
  match expiration_date r with
  | Some e => (e <=? now) && is_active r
  | None => false
  end.

(** The second test of [__init__]:
    [not self.rendered_content or not len(self.rendered_content.strip())]. *)
Definition unrendered (r : Row) : bool :=
  negb (Py.truthy (rendered_content r))
  || (Py.len (Py.strip (rendered_content r)) =? 0).

(** [Article.__init__], run on the field values of a new or a loaded
    row. *)
Definition __init__ (r : Row) : M t :=
  let self := mk r None None None in
  if truthy_id (id (row self)) then
    let* now := datetime_now in
    let* self :=
      if expired_and_active (row self) now
      then save (set_row (set_is_active false (row self)) self)
      else ret self in
    let* self :=
      if unrendered (row self)
      then save self
      else ret self in
    ret self
  else ret self.

(** [Article.objects.get(id=pk)] *)
Definition objects_get (pk : Z) : M t :=
  let* found := (fun w => (Return (stored pk w), w)) in
  match found with
  | Some r => __init__ r
  | None => raise DoesNotExist
  end.

Definition lookup_failed (e : PyExn) : bool :=
  match e with
  | DoesNotExist | IndexError => true
  | _ => false
  end.

Definition publish_le (a b : Row) : bool := publish_date a <=? publish_date b.
Definition publish_ge (a b : Row) : bool := publish_date b <=? publish_date a.

(** [Article.objects.active().exclude(id__exact=self.id)] *)
Definition other_active (self : t) : M (list Row) :=
  let* qs := ArticleManager.active in
  ret (List.filter (fun x => negb (id_eqb (id x) (id (row self)))) qs).

(** [qs.filter(publish_date__gte=self.publish_date).order_by('publish_date')] *)
Definition later_first (self : t) (qs : list Row) : list Row :=
  order_by publish_le
    (List.filter (fun x => publish_date (row self) <=? publish_date x) qs).

(** [qs.filter(publish_date__lte=self.publish_date).order_by('-publish_date')] *)
Definition earlier_first (self : t) (qs : list Row) : list Row :=
  order_by publish_ge
    (List.filter (fun x => publish_date x <=? publish_date (row self)) qs).

(** [Article.get_next_article]: the result and the instance afterwards.
    Taking [[0]] of the query set builds the instance of the row found,
    which runs [__init__]. *)
Definition get_next_article (self : t) : M (option t * t) :=
  match _next self with
  | Some a => ret (Some a, self)
  | None =>
      let* article :=
        try_except_only lookup_failed
          (let* qs := other_active self in
           let* r := index0 (later_first self qs) in
           let* a := __init__ r in
           ret (Some a))
          (ret None) in
      ret (article, set_next article self)
  end.

(** [Article.get_previous_article] *)
Definition get_previous_article (self : t) : M (option t * t) :=
  match _previous self with
  | Some a => ret (Some a, self)
  | None =>
      let* article :=
        try_except_only lookup_failed
          (let* qs := other_active self in
           let* r := index0 (earlier_first self qs) in
           let* a := __init__ r in
           ret (Some a))
          (ret None) in
      ret (article, set_previous article self)
  end.

(** The cache key of a link target. *)
Definition link_key (url : string) : string :=
  "href_title_" +:+ Py.strip (Base64.encodestring url).

(** The title looked up for a link that is not in the cache. *)
Definition fetch_title (url text : string) : M string :=
  try_except
    (let* html := urlopen_read url in
     match Re.TITLE_RE_search html with
     | Some title => ret title
     | None => ret text
     end)
    (ret text).

(** The body of the loop over the links: [links] and [keys] are the
    loop's two variables. *)
Definition links_step (link : string * string)
           (st : gmap string string * list string)
  : M (gmap string string * list string) :=
  let '(links, keys) := st in
  let url := fst link in
  let key := link_key url in
  let* cached := cache_get key in
  let* _ :=
    if negb (Py.truthy_opt cached) then
      let* title := fetch_title url (snd link) in
      cache_set key title 604800
    else ret tt in
  let* val := cache_get key in
  match val with
  | Some v =>
      if Py.truthy v then
        let links := <[url := v]> links in
        let keys := if bool_decide (url ∈ keys) then keys else keys ++ [url] in
        ret (links, keys)
      else ret (links, keys)
  | None => ret (links, keys)
  end.

(** [links[key]] *)
Definition getitem (links : gmap string string) (key : string) : M string :=
  match links !! key with
  | Some v => ret v
  | None => raise KeyError
  end.

(** [Article._get_article_links] *)
Definition _get_article_links (self : t) : M (list (string * string)) :=
  let* (links, keys) :=
    for_each (Re.LINK_RE_finditer (rendered_content (row self))) links_step (∅, []) in
  for_each keys
    (fun key sorted => let* v := getitem links key in ret (sorted ++ [(key, v)]))
    [].

End Methods.

End Article.

(** ** The specification's vocabulary

    Definitions that follow the specification's wording; the theorems
    below compare them with the code. *)

Module Spec.

(** "lowercase alphanumerics, [-], [_], [+], [:], [.]" *)
Definition tag_alphabet (c : ascii) : Prop :=
  Py.islower c = true \/ Py.isdigit c = true \/
  c = "-"%char \/ c = "_"%char \/ c = "+"%char \/ c = ":"%char \/ c = "."%char.

(** "the dialect-specific converter selected by markup (plain/HTML passes
    content through unchanged)" *)
Definition render `{Markup} (content markup : string) : string :=
  match markup with
  | "m" => markdown content
  | "r" => restructuredtext content
  | "t" => textile content
  | _ => content
  end.

(** "if description is non-empty (after trimming), use it; otherwise use
    rendered_content.  Split on single spaces; if the resulting token
    count exceeds word_limit, join the first word_limit tokens with spaces
    and append a literal ellipsis; otherwise return the text unchanged." *)
Definition derive_teaser (description rendered_content : string)
           (word_limit : nat) : string :=
  let text := if decide (Py.strip description = "")
              then rendered_content else description in
  let tokens := Py.split " " text in
  if decide (word_limit < length tokens)%nat
  then Py.join " " (take word_limit tokens) +:+ "..."
  else text.

(** "deduplicated by URL, ordered by first appearance": every URL once,
    at the place of its first occurrence. *)
Definition first_appearances (urls : list string) : list string :=
  reverse (remove_dups (reverse urls)).

(** "active articles (published, not expired)": published by [now], not
    expired at [now], and flagged active. *)
Definition active_article (now : Z) (x : Row) : Prop :=
  publish_date x <= now
  /\ (forall e, expiration_date x = Some e -> now <= e)
  /\ is_active x = true.

(** The articles [next] chooses among: stored, active, not the article
    itself, published no earlier than it. *)
Definition next_candidate (w : World) (self x : Row) : Prop :=
  In x (article_table w) /\ active_article (clock w) x
  /\ id x <> id self /\ publish_date self <= publish_date x.

(** The articles [previous] chooses among. *)
Definition previous_candidate (w : World) (self x : Row) : Prop :=
  In x (article_table w) /\ active_article (clock w) x
  /\ id x <> id self /\ publish_date x <= publish_date self.

(** "comma-and-space-joined tag names" *)
Definition derive_keywords (tags : list Tag.t) : string :=
  Py.join ", " (map Tag.name tags).

End Spec.

(** ** Auxiliary definitions for the statements *)

Fixpoint all_chars (P : ascii -> bool) (s : string) : bool :=
  match s with
  | EmptyString => true
  | String c s' => P c && all_chars P s'
  end.

(** The key under which [Model_save] writes a row. *)
Definition saved_pk (r : Row) (w : World) : Z :=
  match id r with
  | Some pk => pk
  | None => next_id w
  end.

(** Two rows that differ at most in the two columns [save] derives. *)
Definition same_columns (r r' : Row) : Prop :=
  set_keywords "" (set_description "" r) = set_keywords "" (set_description "" r').

(** What [save] leaves behind. *)
Record save_post `{Settings} `{Markup} (self : Article.t) (w : World) (self' : Article.t) (w' : World)
  : Prop := {
  sp_columns :
    same_columns
      (set_id (Some (saved_pk (Article.row self) w)) (Article.row (Article.prepare self)))
      (Article.row self');
  sp_writes :
    exists extra,
      writes w' = writes w
                  ++ set_id (Some (saved_pk (Article.row self) w))
                       (Article.row (Article.prepare self)) :: extra
      /\ (extra = []
          /\ Article.row self'
             = set_id (Some (saved_pk (Article.row self) w))
                 (Article.row (Article.prepare self))
          \/ extra = [Article.row self'])
      /\ (Article.blank (keywords (Article.row self)) = true ->
          extra = [Article.row self'])
      /\ (Article.blank (keywords (Article.row self)) = false ->
          Article.blank (description (Article.row self)) = false ->
          sites_joined (saved_pk (Article.row self) w) w <> [] ->
          extra = []);
  sp_keywords :
    keywords (Article.row self')
    = if Article.blank (keywords (Article.row self))
      then Spec.derive_keywords
             (order_by tag_name_le (tags_joined (saved_pk (Article.row self) w) w))
      else keywords (Article.row self);
  sp_clock : clock w' = clock w;
  sp_tags : article_tags w' = article_tags w;
  sp_cache : cache w' = cache w;
  sp_network : network w' = network w;
  sp_fetches : fetches w' = fetches w;
  sp_stored :
    forall pk, id (Article.row self) = Some pk -> is_Some (stored pk w) ->
               stored pk w' = Some (Article.row self');
  sp_next : Article._next self' = Article._next self;
  sp_previous : Article._previous self' = Article._previous self
}.

(** The value a computation returned, if it did not raise. *)
Definition returned {A} (x : Outcome A * World) : option A :=
  match fst x with
  | Return a => Some a
  | Raise _ => None
  end.

(** ** Collaborators used in the examples *)

Definition default_settings : Settings := {| WORD_LIMIT := 75; SITE_ID := 1 |}.

Definition tagging_markup : Markup :=
  {| markdown s := "<p>" +:+ s +:+ "</p>";
     restructuredtext s := "<div>" +:+ s +:+ "</div>";
     textile s := "<span>" +:+ s +:+ "</span>" |}.

Definition offline : nat -> string -> option string := fun _ _ => None.

Definition empty_world (now : Z) : World :=
  mkWorld now [] [] [] 1 [] ∅ offline 0.

Definition plain_row (pk : option Z) (body : string) : Row :=
  mkRow pk "Title" "title" {| username := "bob" |} "" "" MARKUP_HTML body body
    10 None true false false false None.

Definition fresh (r : Row) : Article.t := Article.mk r None None None.

(** A stored article with key 5, no keywords, and the given tags joined to
    it in the given order. *)
Definition article5 : Row := plain_row (Some 5) "body".

Definition tagged_world (names : list string) : World :=
  mkWorld 100 [article5]
    (map (fun n => (5, {| Tag.name := n |})) names) [(5, 1)] 6 [] ∅ offline 0.

(** A stored, active article with key 5 that expires at [e], in a world
    whose clock shows 100. *)
Definition expiring5 (e : Z) (kw : string) : Row :=
  mkRow (Some 5) "Title" "title" {| username := "bob" |} kw "about" MARKUP_HTML
    "body" "body" 10 (Some e) true false false false None.

Definition expiring_world (e : Z) (kw : string) : World :=
  mkWorld 100 [expiring5 e kw] [] [(5, 1)] 6 [] ∅ offline 0.

(** Three stored articles published at [T1], [T2] and [T3], the second one
    inactive, seen at the instant [now]. *)
Definition published (pk T : Z) (active : bool) : Row :=
  mkRow (Some pk) "Title" "title" {| username := "bob" |} "news" "about" MARKUP_HTML
    "body" "body" T None active false false false None.

Definition timeline (T1 T2 T3 now : Z) : World :=
  mkWorld now [published 1 T1 true; published 2 T2 false; published 3 T3 true]
    [] [(1, 1); (2, 1); (3, 1)] 4 [] ∅ offline 0.

(** [if url not in keys: keys.append(url)] *)
Definition add_key (url : string) (keys : list string) : list string :=
  if bool_decide (url ∈ keys) then keys else keys ++ [url].

(** The title a fetch made in the world [w] yields for a link: the page's
    title, or the anchor's text when the fetch fails or the page has none. *)
Definition fetched_title (w : World) (link : string * string) : string :=
  match network w (fetches w) (fst link) with
  | Some html => default (snd link) (Re.TITLE_RE_search html)
  | None => snd link
  end.

(** No page the network can serve has an empty [<title>]. *)
Definition titles_not_empty (w : World) : Prop :=
  forall n url html, network w n url = Some html -> Re.TITLE_RE_search html <> Some "".

(** Every listed key has a non-empty title in [links]. *)
Definition titled (links : gmap string string) (keys : list string) : Prop :=
  forall k, k ∈ keys -> exists v, links !! k = Some v /\ v <> "".

(** An anchor tag as the renderers write it. *)
Definition anchor (url text : string) : string :=
  "<a href=" +:+ Re.quote +:+ url +:+ Re.quote +:+ ">" +:+ text +:+ "</a>".

(** The page of two links of the specification's example. *)
Definition two_links : string := anchor "http://x/a" "A" +:+ anchor "http://x/b" "B".



(** ** Further parts of the module *)

(** [django.template.defaultfilters]: the one filter the module uses. *)
Class TemplateFilters := {
  striptags : string -> string
}.

(** The occurrences of a character in a string. *)
Fixpoint count_char (c : ascii) (s : string) : nat :=
  match s with
  | EmptyString => 0
  | String x s' => (if Ascii.eqb x c then 1 else 0) + count_char c s'
  end.

(** [Article._get_word_count] *)
Definition _get_word_count `{TemplateFilters} (self : Article.t) : Z :=
  Z.of_nat (length (Py.split " " (striptags (rendered_content (Article.row self))))).

(** The title the cache holds for a link target, empty when it holds none. *)
Definition cached_title (w : World) (url : string) : string :=
  default "" (fst <$> cache w !! Article.link_key url).

(** Two worlds that differ in the cache and the count of fetches at most. *)
Definition same_storage (w w' : World) : Prop :=
  w' = with_cache (cache w') (with_fetches (fetches w') w).

(** A stored article with key 5 in Markdown that has not been rendered. *)
Definition unrendered5 : Row :=
  mkRow (Some 5) "Title" "title" {| username := "bob" |} "news" "about"
    MARKUP_MARKDOWN "*x*" "" 10 None true false false false None.

Definition unrendered_world : World :=
  mkWorld 100 [unrendered5] [] [(5, 1)] 6 [] ∅ offline 0.

(** A world whose cache already holds titles for the two links of
    [two_links], and whose network would serve another title. *)
Definition warm_world : World :=
  mkWorld 100 [] [] [] 1 []
    (<[Article.link_key "http://x/a" := ("Alpha", 604800)]>
       (<[Article.link_key "http://x/b" := ("Beta", 60)]> ∅))
    (fun _ _ => Some "<title>Fetched</title>") 0.

(** The article [r] is among the active articles of the world [w] when its
    clock shows [t]. *)
Definition listed_at (w : World) (t : Z) (r : Row) : Prop :=
  exists qs, fst (ArticleManager.active (with_clock t w)) = Return qs /\ In r qs.

(** No character of [s] is [c]. *)
Definition free_of (c : ascii) (s : string) : Prop := count_char c s = 0%nat.

(** The double quote and the line feed. *)
Definition dquote : ascii := ascii_of_nat 34.

(** A URL of 58 bytes, one more than a line of [encodestring] takes. *)
Definition long_url : string :=
  "http://example.org/articles/2011/a-rather-long-address-xyz".

(** ** Links that are sure to be listed *)



(** A page whose second link has no text. *)
Definition mixed_links : string :=
  anchor "http://x/a" "A" +:+ anchor "http://x/b" "" +:+ anchor "http://x/c" "C".
(** * Properties *)

(** ** The embedded library functions on known values *)

Example b64_ex1 : Base64.encodestring "Man" = "TWFu" +:+ String Re.newline "".
Proof. reflexivity. Qed.

Example b64_ex2 : Py.strip (Base64.encodestring "http://x/a") = "aHR0cDovL3gvYQ==".
Proof. reflexivity. Qed.

Example b64_ex3 : Py.strip (Base64.encodestring "ab") = "YWI=".
Proof. reflexivity. Qed.

Example b64_ex4 : Base64.encodestring "" = "".
Proof. reflexivity. Qed.

Example link_ex1 :
  Re.LINK_RE_finditer ("<a href=" +:+ Re.quote +:+ "http://x/a" +:+ Re.quote +:+ ">A</a><A class='q' HREF="
     +:+ Re.quote +:+ "http://x/b" +:+ Re.quote +:+ " id=3>B</a>")
  = [("http://x/a", "A"); ("http://x/b", "B")].
Proof. reflexivity. Qed.

Example title_ex1 : Re.TITLE_RE_search "<html><TITLE>Hi there</title></html>" = Some "Hi there".
Proof. reflexivity. Qed.

Example clean_ex1 : Tag.clean "Hello World!" = "hello-world".
Proof. reflexivity. Qed.

Example first_appearances_ex :
  Spec.first_appearances ["u"; "v"; "u"; "w"; "v"] = ["u"; "v"; "w"].
Proof. reflexivity. Qed.

(** ** Tag names *)

Section CleanFacts.

Local Ltac by_cases_on c :=
  destruct c as [[] [] [] [] [] [] [] []]; vm_compute; intuition congruence.

Lemma tag_char_alphabet c : Re.tag_char c = true -> Spec.tag_alphabet c.
Proof. unfold Spec.tag_alphabet. by_cases_on c. Qed.

Lemma tag_char_not_space c : Re.tag_char c = true -> Py.isspace c = false.
Proof. by_cases_on c. Qed.

Lemma tag_char_lower_fix c : Re.tag_char c = true -> Py.lower_char c = c.
Proof. by_cases_on c. Qed.

Lemma tag_char_not_blank c : Re.tag_char c = true -> Ascii.eqb c " " = false.
Proof. by_cases_on c. Qed.

(** With an empty replacement [TAG_RE.sub] deletes the characters of the
    class and nothing else. *)
Lemma sub_empty_kept adj s :
  all_chars (fun c => Re.tag_char (Py.lower_char c)) (Re.TAG_RE_sub_from "" adj s) = true.
Proof.
  revert adj. induction s as [|c s IH]; intros adj; simpl.
  - now destruct adj.
  - unfold Re.TAG_RE_class.
    destruct (Re.tag_char (Py.lower_char c)) eqn:E; simpl.
    + destruct adj; simpl; rewrite E, IH; reflexivity.
    + apply IH.
Qed.

Lemma sub_empty_fix adj s :
  all_chars Re.tag_char s = true -> Re.TAG_RE_sub_from "" adj s = s.
Proof.
  revert adj. induction s as [|c s IH]; intros adj Hs; simpl in *.
  - now destruct adj.
  - apply andb_prop in Hs as [Hc Hs].
    unfold Re.TAG_RE_class. rewrite (tag_char_lower_fix c Hc), Hc. simpl.
    destruct adj; simpl; now rewrite IH.
Qed.

Lemma lower_tag_chars s :
  all_chars (fun c => Re.tag_char (Py.lower_char c)) s = true ->
  all_chars Re.tag_char (Py.lower s) = true.
Proof.
  induction s as [|c s IH]; simpl; [easy|].
  intros Hs. apply andb_prop in Hs as [Hc Hs]. now rewrite Hc, IH.
Qed.

Lemma lower_fix s : all_chars Re.tag_char s = true -> Py.lower s = s.
Proof.
  induction s as [|c s IH]; simpl; [easy|].
  intros Hs. apply andb_prop in Hs as [Hc Hs].
  now rewrite (tag_char_lower_fix c Hc), IH.
Qed.

Lemma replace_fix s : all_chars Re.tag_char s = true -> Py.replace " " "-" s = s.
Proof.
  induction s as [|c s IH]; simpl; [easy|].
  intros Hs. apply andb_prop in Hs as [Hc Hs].
  now rewrite (tag_char_not_blank c Hc), IH.
Qed.

Lemma lstrip_fix s : all_chars Re.tag_char s = true -> Py.lstrip s = s.
Proof.
  destruct s as [|c s]; simpl; [easy|].
  intros Hs. apply andb_prop in Hs as [Hc _].
  now rewrite (tag_char_not_space c Hc).
Qed.

Lemma rstrip_fix s : all_chars Re.tag_char s = true -> Py.rstrip s = s.
Proof.
  induction s as [|c s IH]; simpl; [easy|].
  intros Hs. apply andb_prop in Hs as [Hc Hs].
  rewrite (IH Hs), (tag_char_not_space c Hc). now destruct s.
Qed.

Lemma strip_fix s : all_chars Re.tag_char s = true -> Py.strip s = s.
Proof.
  intros Hs. unfold Py.strip. rewrite (lstrip_fix s Hs). now apply rstrip_fix.
Qed.

Lemma clean_tag_chars n : all_chars Re.tag_char (Tag.clean n) = true.
Proof.
  unfold Tag.clean.
  pose proof (lower_tag_chars _ (sub_empty_kept false (Py.replace " " "-" n))) as Hl.
  unfold Re.TAG_RE_sub. now rewrite (strip_fix _ Hl).
Qed.

Lemma clean_fix s : all_chars Re.tag_char s = true -> Tag.clean s = s.
Proof.
  intros Hs. unfold Tag.clean, Re.TAG_RE_sub.
  rewrite (replace_fix s Hs), (sub_empty_fix false s Hs), (lower_fix s Hs).
  now apply strip_fix.
Qed.

Lemma all_chars_Forall (P : ascii -> bool) (Q : ascii -> Prop) s :
  (forall c, P c = true -> Q c) ->
  all_chars P s = true -> Forall Q (list_ascii_of_string s).
Proof.
  intros HPQ. induction s as [|c s IH]; simpl; intros Hs.
  - constructor.
  - apply andb_prop in Hs as [Hc Hs]. constructor; auto.
Qed.

End CleanFacts.

(** C9.  For every string [n], [Tag.clean n] consists of lowercase letters,
    digits and the characters [-], [_], [+], [:], [.] only; [Tag.clean] is
    idempotent; and the empty string is cleaned to the empty string. *)
Theorem clean_normalizes (n : string) :
  Forall Spec.tag_alphabet (list_ascii_of_string (Tag.clean n))
  /\ Tag.clean (Tag.clean n) = Tag.clean n
  /\ Tag.clean "" = "".
Proof.
  split; [|split].
  - apply (all_chars_Forall Re.tag_char); [apply tag_char_alphabet|].
    apply clean_tag_chars.
  - apply clean_fix, clean_tag_chars.
  - reflexivity.
Qed.

(** ** Teaser *)

Lemma split_not_nil (sep : ascii) (s : string) : Py.split sep s <> [].
Proof.
  destruct s as [|c s]; simpl; [discriminate|].
  destruct (Ascii.eqb c sep); [discriminate|].
  destruct (Py.split sep s); discriminate.
Qed.

(** Joining the tokens with the separator gives the text back. *)
Lemma join_split (s : string) : Py.join " " (Py.split " " s) = s.
Proof.
  induction s as [|c s IH]; [reflexivity|].
  pose proof (split_not_nil " " s) as Hne. simpl.
  destruct (Ascii.eqb_spec c " ") as [->|Hc].
  - destruct (Py.split " " s) as [|w ws]; [contradiction|].
    simpl in *. now rewrite IH.
  - destruct (Py.split " " s) as [|w ws]; [contradiction|].
    destruct ws as [|w' ws]; simpl in *; now rewrite <- IH.
Qed.

Lemma len_zero s : (Py.len s =? 0) = true <-> s = "".
Proof.
  unfold Py.len. destruct s; simpl; split; easy.
Qed.

Lemma blank_iff s : Article.blank s = true <-> Py.strip s = "".
Proof. apply len_zero. Qed.

Lemma slice_to_nonneg {A} (n : Z) (l : list A) :
  0 <= n -> Py.slice_to n l = take (Z.to_nat n) l.
Proof.
  intros Hn. unfold Py.slice_to.
  destruct (0 <=? n) eqn:E; [reflexivity|]. apply Z.leb_gt in E. lia.
Qed.

Lemma teaser_text_spec `{Settings} (r : Row) :
  0 <= WORD_LIMIT ->
  Article.teaser_text r
  = Spec.derive_teaser (description r) (rendered_content r) (Z.to_nat WORD_LIMIT).
Proof.
  intros Hlim. unfold Article.teaser_text, Spec.derive_teaser.
  destruct (Py.len (Py.strip (description r)) =? 0) eqn:Hb;
    destruct (decide (Py.strip (description r) = "")) as [E|E]; simpl.
  2: { apply len_zero in Hb. contradiction. }
  2: { apply len_zero in E. congruence. }
  all: destruct (WORD_LIMIT <? _) eqn:Hw;
    [apply Z.ltb_lt in Hw | apply Z.ltb_ge in Hw];
    match goal with |- context [decide ?P] => destruct (decide P) end;
    try lia; try reflexivity; now rewrite slice_to_nonneg.
Qed.

Lemma get_teaser_unset `{Settings} (self : Article.t) :
  Py.truthy_opt (Article._teaser self) = false ->
  Article._get_teaser self
  = (Article.teaser_text (Article.row self),
     Article.set_teaser (Some (Article.teaser_text (Article.row self))) self).
Proof. intros Hm. unfold Article._get_teaser. now rewrite Hm. Qed.

(** C5.  On an instance without a memoized teaser and with a non-negative
    word limit, the teaser is the specification's [derive_teaser] of the
    description and the rendered content: the description when it is
    non-empty after trimming and the rendered content otherwise, cut after
    [WORD_LIMIT] space-separated tokens with ["..."] appended when there are
    more, and returned unchanged when there are not.  With the default limit
    a text of at most 75 tokens is returned as it is and a text of 76 tokens
    gives its first 75 tokens joined by spaces and ["..."]. *)
Theorem teaser_derivation `{Settings} (self : Article.t) :
  0 <= WORD_LIMIT ->
  Py.truthy_opt (Article._teaser self) = false ->
  let r := Article.row self in
  let text := if decide (Py.strip (description r) = "")
              then rendered_content r else description r in
  let words := Py.split " " text in
  let teaser := fst (Article._get_teaser self) in
  teaser = Spec.derive_teaser (description r) (rendered_content r) (Z.to_nat WORD_LIMIT)
  /\ (Z.of_nat (length words) <= WORD_LIMIT -> teaser = text)
  /\ (WORD_LIMIT < Z.of_nat (length words) ->
      teaser = Py.join " " (take (Z.to_nat WORD_LIMIT) words) +:+ "...")
  /\ (WORD_LIMIT = 75 -> (length words <= 75)%nat -> teaser = text)
  /\ (WORD_LIMIT = 75 -> length words = 76%nat ->
      teaser = Py.join " " (take 75 words) +:+ "...").
Proof.
  intros Hlim Hm r text words teaser.
  assert (teaser = Spec.derive_teaser (description r) (rendered_content r)
                     (Z.to_nat WORD_LIMIT)) as E.
  { subst teaser. rewrite get_teaser_unset by exact Hm. simpl.
    now apply teaser_text_spec. }
  assert (Z.of_nat (length words) <= WORD_LIMIT -> teaser = text) as Hshort.
  { intros Hle. rewrite E. unfold Spec.derive_teaser. fold text. fold words.
    now rewrite decide_False by lia. }
  assert (WORD_LIMIT < Z.of_nat (length words) ->
          teaser = Py.join " " (take (Z.to_nat WORD_LIMIT) words) +:+ "...") as Hlong.
  { intros Hlt. rewrite E. unfold Spec.derive_teaser. fold text. fold words.
    now rewrite decide_True by lia. }
  repeat split; try assumption.
  - intros H75 Hle. apply Hshort. lia.
  - intros H75 H76. rewrite Hlong by lia. now rewrite H75.
Qed.

Lemma teaser_derivation_witness :
  0 <= @WORD_LIMIT default_settings
  /\ Py.truthy_opt (Article._teaser (fresh (plain_row None "to be or not"))) = false
  /\ fst (Article._get_teaser (H := default_settings) (fresh (plain_row None "to be or not")))
     = Spec.derive_teaser "" "to be or not" 75.
Proof.
  assert (0 <= @WORD_LIMIT default_settings) as Hlim by (simpl; lia).
  assert (Py.truthy_opt (Article._teaser (fresh (plain_row None "to be or not"))) = false)
    as Hm by reflexivity.
  exact (conj Hlim (conj Hm
           (proj1 (teaser_derivation (H := default_settings) _ Hlim Hm)))).
Defined.

Example teaser_cut :
  fst (Article._get_teaser (H := {| WORD_LIMIT := 3; SITE_ID := 1 |})
         (fresh (plain_row None "to be or not to be")))
  = "to be or...".
Proof. reflexivity. Qed.

Example teaser_uses_description :
  fst (Article._get_teaser (H := default_settings)
         (fresh (set_description " short " (plain_row None "body"))))
  = " short ".
Proof. reflexivity. Qed.

(** ** Saving *)

Lemma Model_save_eq (r : Row) (w : World) :
  let r' := set_id (Some (saved_pk r w)) r in
  Model_save r w
  = (Return r',
     with_table
       (match id r with
        | Some pk => store_row pk r (article_table w)
        | None => article_table w ++ [r']
        end)
       (match id r with Some _ => next_id w | None => next_id w + 1 end)
       (writes w ++ [r']) w).
Proof. destruct r as [[pk|]]; reflexivity. Qed.

Lemma set_id_same (r : Row) (pk : Z) : id r = Some pk -> set_id (Some pk) r = r.
Proof. destruct r; simpl; intros ->; reflexivity. Qed.

Lemma stored_store_row (pk : Z) (r : Row) (table : list Row) :
  id r = Some pk ->
  is_Some (head (List.filter (fun x => id_eqb (id x) (Some pk)) table)) ->
  head (List.filter (fun x => id_eqb (id x) (Some pk)) (store_row pk r table)) = Some r.
Proof.
  intros Hid [r0 Hr0]. unfold store_row.
  assert (id_eqb (id r) (Some pk) = true) as Hr.
  { rewrite Hid. simpl. apply Z.eqb_refl. }
  assert (existsb (fun x => id_eqb (id x) (Some pk)) table = true) as ->.
  { induction table as [|x table IH]; simpl in *; [discriminate|].
    destruct (id_eqb (id x) (Some pk)); simpl; auto. }
  induction table as [|x table IH]; simpl in *; [discriminate|].
  destruct (id_eqb (id x) (Some pk)) eqn:Ex; simpl.
  - now rewrite Hr.
  - rewrite Ex. auto.
Qed.

Section SaveFacts.
Context `{Settings} `{Markup}.

Lemma render_spec (r : Row) : Article.render r = Spec.render (content r) (markup r).
Proof.
  unfold Article.render, Spec.render, MARKUP_MARKDOWN, MARKUP_REST, MARKUP_TEXTILE.
  destruct (String.eqb_spec (markup r) "m") as [->|Hm]; [reflexivity|].
  destruct (String.eqb_spec (markup r) "r") as [->|Hr]; [reflexivity|].
  destruct (String.eqb_spec (markup r) "t") as [->|Ht]; [reflexivity|].
  destruct (markup r) as [|a s]; [reflexivity|].
  destruct a as [[] [] [] [] [] [] [] []]; destruct s; try reflexivity; congruence.
Qed.

Lemma fill_keywords_eq (self : Article.t) (b : bool) (w : World) (pk : Z) :
  id (Article.row self) = Some pk ->
  Article.fill_keywords (self, b) w
  = (Return
       (if Article.blank (keywords (Article.row self))
        then (Article.set_row
                (set_keywords
                   (Spec.derive_keywords (order_by tag_name_le (tags_joined pk w)))
                   (Article.row self)) self, true)
        else (self, b)), w).
Proof.
  intros Hid. unfold Article.fill_keywords, Article.blank, Article.pk_of.
  rewrite Hid. now destruct (Py.len _ =? 0).
Qed.

Lemma fill_description_eq (self : Article.t) (b : bool) (w : World) :
  Article.fill_description (self, b) w
  = (Return
       (if Article.blank (description (Article.row self))
        then (Article.set_row
                (set_description (fst (Article._get_teaser self))
                   (Article.row (snd (Article._get_teaser self))))
                (snd (Article._get_teaser self)), true)
        else (self, b)), w).
Proof.
  unfold Article.fill_description, Article.blank.
  destruct (Py.len _ =? 0); [|reflexivity].
  now destruct (Article._get_teaser self).
Qed.

Lemma fill_sites_eq (self : Article.t) (b : bool) (w : World) (pk : Z) :
  id (Article.row self) = Some pk ->
  Article.fill_sites (self, b) w
  = match sites_joined pk w with
    | [] => (Return (self, true),
             with_sites (List.filter (fun x => negb (fst x =? pk)) (article_sites w)
                         ++ [(pk, SITE_ID)]) w)
    | _ :: _ => (Return (self, b), w)
    end.
Proof.
  intros Hid. unfold Article.fill_sites, Article.pk_of. rewrite Hid.
  unfold bind, ret, sites_all, sites_assign. now destruct (sites_joined pk w).
Qed.

Lemma get_teaser_row (self : Article.t) :
  Article.row (snd (Article._get_teaser self)) = Article.row self
  /\ Article._next (snd (Article._get_teaser self)) = Article._next self
  /\ Article._previous (snd (Article._get_teaser self)) = Article._previous self.
Proof. unfold Article._get_teaser. now destruct (negb _). Qed.

End SaveFacts.

Section SaveCorrect.
Context `{Settings} `{Markup}.

Lemma prepare_id (self : Article.t) :
  id (Article.row (Article.prepare self)) = id (Article.row self).
Proof. unfold Article.prepare. simpl. now destruct (_ && _). Qed.

Lemma prepare_keywords (self : Article.t) :
  keywords (Article.row (Article.prepare self)) = keywords (Article.row self).
Proof. unfold Article.prepare. simpl. now destruct (_ && _). Qed.

Lemma prepare_description (self : Article.t) :
  description (Article.row (Article.prepare self)) = description (Article.row self).
Proof. unfold Article.prepare. simpl. now destruct (_ && _). Qed.

Lemma prepare_next (self : Article.t) :
  Article._next (Article.prepare self) = Article._next self.
Proof. unfold Article.prepare. simpl. now destruct (_ && _). Qed.

Lemma prepare_previous (self : Article.t) :
  Article._previous (Article.prepare self) = Article._previous self.
Proof. unfold Article.prepare. simpl. now destruct (_ && _). Qed.

Lemma saved_pk_prepare (self : Article.t) (w : World) :
  saved_pk (Article.row (Article.prepare self)) w = saved_pk (Article.row self) w.
Proof. unfold saved_pk. now rewrite prepare_id. Qed.

Local Ltac stored_goal pk r1 Hpid :=
  let pk0 := fresh "pk0" in
  let Hid := fresh "Hid" in
  let Hst := fresh "Hst" in
  let Hpk := fresh "Hpk" in
  intros pk0 Hid Hst;
  assert (pk = pk0) as Hpk by (subst pk; unfold saved_pk; now rewrite Hid);
  subst r1; clearbody pk; subst pk;
  rewrite Hid in Hpid |- *;
  unfold stored in *; cbn [article_table with_table with_sites];
  rewrite ?(set_id_same _ pk0) by (cbn; exact Hpid);
  repeat (apply stored_store_row; [cbn; exact Hpid | ]);
  try exact Hst;
  rewrite stored_store_row; eauto.

Lemma save_ok (self : Article.t) (w : World) :
  exists self' w', Article.save self w = (Return self', w') /\ save_post self w self' w'.
Proof.
  pose proof (prepare_id self) as Hpid.
  pose proof (prepare_keywords self) as Hpkw.
  pose proof (prepare_description self) as Hpd.
  unfold Article.save, bind at 1. rewrite Model_save_eq. cbv zeta.
  rewrite saved_pk_prepare, Hpid.
  set (pk := saved_pk (Article.row self) w).
  set (r1 := set_id (Some pk) (Article.row (Article.prepare self))).
  set (w1 := with_table _ _ _ w).
  unfold bind at 1. rewrite (fill_keywords_eq _ _ _ pk) by reflexivity.
  assert (keywords r1 = keywords (Article.row self)) as Hk1 by exact Hpkw.
  assert (description r1 = description (Article.row self)) as Hd1 by exact Hpd.
  cbn [Article.row Article.set_row]. rewrite Hk1.
  destruct (Article.blank (keywords (Article.row self))) eqn:Ekw;
    unfold bind at 1; rewrite fill_description_eq;
    cbn [Article.row Article.set_row description set_keywords]; rewrite Hd1;
    destruct (Article.blank (description (Article.row self))) eqn:Ed;
    unfold bind at 1.
  all: try match goal with
       | |- context [Article._get_teaser ?x] =>
           destruct (get_teaser_row x) as (Hr & Hn & Hp);
           destruct (Article._get_teaser x) as [text [rt nt pt mt]];
           cbn [fst snd Article.row Article._next Article._previous Article.set_row] in *;
           subst rt nt pt
       end.
  all: rewrite (fill_sites_eq _ _ _ pk) by reflexivity.
  all: change (sites_joined pk w1) with (sites_joined pk w);
    destruct (sites_joined pk w) eqn:Es.
  all: try (unfold bind at 1; rewrite Model_save_eq; cbv zeta).
  all: unfold ret; eexists _, _; (split; [reflexivity|]).
  all: subst w1; constructor; cbn -[store_row order_by];
    try reflexivity; try apply prepare_next; try apply prepare_previous.
  all: try (rewrite Ekw; first [reflexivity | exact Hpkw]).
  all: try (stored_goal pk r1 Hpid; fail).
  all: try (first
    [ exists []; split; [reflexivity|];
      split; [left; split; reflexivity|];
      split; [intros; congruence | intros; reflexivity]
    | eexists [_]; split; [now rewrite <- app_assoc|];
      split; [right; reflexivity|];
      split; [intros; reflexivity
             | intros ? ? Hne; try congruence; exfalso; apply Hne; exact Es] ]; fail).
Qed.

End SaveCorrect.

Lemma same_columns_fields (r r' : Row) :
  same_columns r r' ->
  id r = id r' /\ content r = content r' /\ markup r = markup r'
  /\ rendered_content r = rendered_content r'
  /\ publish_date r = publish_date r' /\ expiration_date r = expiration_date r'
  /\ is_active r = is_active r'.
Proof.
  unfold same_columns. intros E.
  repeat split;
    [ apply (f_equal id) in E | apply (f_equal content) in E
    | apply (f_equal markup) in E | apply (f_equal rendered_content) in E
    | apply (f_equal publish_date) in E | apply (f_equal expiration_date) in E
    | apply (f_equal is_active) in E ]; exact E.
Qed.

Section PrepareFacts.
Context `{Markup}.

Lemma prepare_columns (self : Article.t) :
  let r := Article.row self in
  let p := Article.row (Article.prepare self) in
  content p = content r /\ markup p = markup r
  /\ rendered_content p = Article.render r
  /\ publish_date p = publish_date r /\ expiration_date p = expiration_date r
  /\ is_active p = is_active r.
Proof. unfold Article.prepare. simpl. now destruct (_ && _). Qed.

End PrepareFacts.

(** C1.  Every call of [save] returns, and the instance it hands back has
    the content and the markup it was called with and a [rendered_content]
    equal to the rendering the markup selects: [markdown] for ["m"],
    [restructuredtext] for ["r"], [textile] for ["t"] and the content itself
    for every other value. *)
Theorem save_renders `{Settings} `{Markup} (self : Article.t) (w : World) :
  exists self' w',
    Article.save self w = (Return self', w')
    /\ content (Article.row self') = content (Article.row self)
    /\ markup (Article.row self') = markup (Article.row self)
    /\ rendered_content (Article.row self')
       = Spec.render (content (Article.row self')) (markup (Article.row self')).
Proof.
  destruct (save_ok self w) as (self' & w' & Hs & Hp).
  exists self', w'. split; [exact Hs|].
  destruct (same_columns_fields _ _ (sp_columns _ _ _ _ Hp))
    as (_ & Hc & Hm & Hr & _).
  destruct (prepare_columns self) as (Hc' & Hm' & Hr' & _).
  simpl in Hc, Hm, Hr.
  rewrite <- Hc, <- Hm, <- Hr, Hc', Hm', Hr'.
  repeat split. apply render_spec.
Qed.

Example save_renders_markdown :
  (fun a => rendered_content (Article.row a)) <$>
    returned
      (Article.save (H := default_settings) (H0 := tagging_markup)
         (fresh (mkRow None "T" "t" {| username := "ann" |} "k" "d" "m" "*x*" ""
                   0 None true false false false None))
         (empty_world 1))
  = Some "<p>*x*</p>".
Proof. reflexivity. Qed.

(** ** Keywords *)

Section OrderByFacts.
Context {A : Type} (le : A -> A -> bool).
Hypothesis le_total : forall a b, le a b = true \/ le b a = true.

Lemma insert_sorted_perm (x : A) (l : list A) : insert_sorted le x l ≡ₚ x :: l.
Proof.
  induction l as [|y l IH]; simpl; [reflexivity|].
  destruct (le x y); [reflexivity|].
  rewrite IH. apply Permutation_swap.
Qed.

Lemma order_by_perm (l : list A) : order_by le l ≡ₚ l.
Proof.
  induction l as [|x l IH]; simpl; [reflexivity|].
  now rewrite insert_sorted_perm, IH.
Qed.

Lemma insert_sorted_sorted (x : A) (l : list A) :
  Sorted (fun a b => le a b = true) l ->
  Sorted (fun a b => le a b = true) (insert_sorted le x l).
Proof.
  induction l as [|y l IH]; simpl; intros Hs.
  - repeat constructor.
  - destruct (le x y) eqn:Exy.
    + constructor; [exact Hs | now constructor].
    + apply Sorted_inv in Hs as [Hs Hhd].
      constructor; [now apply IH|].
      destruct l as [|z l]; simpl.
      * constructor. destruct (le_total x y); congruence.
      * destruct (le x z).
        -- constructor. destruct (le_total x y); congruence.
        -- constructor. now apply HdRel_inv in Hhd.
Qed.

Lemma order_by_sorted (l : list A) : Sorted (fun a b => le a b = true) (order_by le l).
Proof.
  induction l as [|x l IH]; simpl; [constructor|].
  now apply insert_sorted_sorted.
Qed.

End OrderByFacts.

Lemma tag_name_le_total (a b : Tag.t) : tag_name_le a b = true \/ tag_name_le b a = true.
Proof. apply String.leb_total. Qed.

(** C6 (as amended).  When the keywords are blank at save time, [save]
    returns with the keywords set to the names of the article's tags joined
    by [", "], the tags taken in ascending order of name (the default
    ordering of [Tag]), whatever the order in which they were joined to the
    article; the result is persisted by a second write. *)
Theorem keywords_from_tags `{Settings} `{Markup} (self : Article.t) (w : World) :
  Article.blank (keywords (Article.row self)) = true ->
  let pk := saved_pk (Article.row self) w in
  let tags := order_by tag_name_le (tags_joined pk w) in
  exists self' w' first,
    Article.save self w = (Return self', w')
    /\ keywords (Article.row self') = Spec.derive_keywords tags
    /\ tags ≡ₚ tags_joined pk w
    /\ Sorted (fun a b => String.leb (Tag.name a) (Tag.name b) = true) tags
    /\ writes w' = writes w ++ [first; Article.row self'].
Proof.
  intros Hb pk tags.
  destruct (save_ok self w) as (self' & w' & Hs & Hp).
  destruct (sp_writes _ _ _ _ Hp) as (extra & Hw & _ & Hextra & _).
  exists self', w', (set_id (Some pk) (Article.row (Article.prepare self))).
  split; [exact Hs|]. split.
  { rewrite (sp_keywords _ _ _ _ Hp), Hb. reflexivity. }
  split; [apply order_by_perm|].
  split; [apply (order_by_sorted tag_name_le tag_name_le_total)|].
  rewrite Hw, (Hextra Hb). reflexivity.
Qed.

Lemma keywords_from_tags_witness :
  Article.blank (keywords (Article.row (fresh article5))) = true
  /\ exists self' w' first,
       Article.save (H := default_settings) (H0 := tagging_markup)
         (fresh article5) (tagged_world ["go"; "rust"]) = (Return self', w')
       /\ keywords (Article.row self') = "go, rust"
       /\ writes w' = [first; Article.row self'].
Proof.
  assert (Article.blank (keywords (Article.row (fresh article5))) = true) as Hb
    by reflexivity.
  split; [exact Hb|].
  destruct (keywords_from_tags (H := default_settings) (H0 := tagging_markup)
              (fresh article5) (tagged_world ["go"; "rust"]) Hb)
    as (self' & w' & first & Hs & Hk & _ & _ & Hw).
  exists self', w', first. split; [exact Hs|]. split; [|exact Hw].
  rewrite Hk. reflexivity.
Defined.

(** C6 as stated fails: with the tags joined in the order "rust", "go" the
    saved keywords are "go, rust", not the names in insertion order. *)
Lemma keywords_not_in_insertion_order :
  Article.blank (keywords (Article.row (fresh article5))) = true
  /\ map Tag.name (tags_joined 5 (tagged_world ["rust"; "go"])) = ["rust"; "go"]
  /\ (fun a => keywords (Article.row a)) <$>
       returned (Article.save (H := default_settings) (H0 := tagging_markup)
                   (fresh article5) (tagged_world ["rust"; "go"]))
     = Some "go, rust"
  /\ (fun a => keywords (Article.row a)) <$>
       returned (Article.save (H := default_settings) (H0 := tagging_markup)
                   (fresh article5) (tagged_world ["rust"; "go"]))
     <> Some (Spec.derive_keywords (tags_joined 5 (tagged_world ["rust"; "go"]))).
Proof. repeat split; try reflexivity. vm_compute. discriminate. Qed.

(** ** Loading *)

Section LoadFacts.
Context `{Settings} `{Markup}.

(** [save] on a stored article, as far as loading needs it. *)
Lemma save_summary (self : Article.t) (w : World) (pk : Z) :
  id (Article.row self) = Some pk ->
  exists self' w' first rest,
    Article.save self w = (Return self', w')
    /\ id (Article.row self') = Some pk
    /\ publish_date (Article.row self') = publish_date (Article.row self)
    /\ expiration_date (Article.row self') = expiration_date (Article.row self)
    /\ is_active (Article.row self') = is_active (Article.row self)
    /\ rendered_content (Article.row self') = Article.render (Article.row self)
    /\ writes w' = writes w ++ first :: rest
    /\ Forall (fun x => is_active x = is_active (Article.row self) /\ id x = Some pk)
         (first :: rest)
    /\ (Article.blank (keywords (Article.row self)) = false ->
        Article.blank (description (Article.row self)) = false ->
        sites_joined pk w <> [] -> rest = [])
    /\ clock w' = clock w
    /\ (is_Some (stored pk w) -> stored pk w' = Some (Article.row self'))
    /\ Article._next self' = Article._next self
    /\ Article._previous self' = Article._previous self.
Proof.
  intros Hid.
  destruct (save_ok self w) as (self' & w' & Hs & Hp).
  destruct (sp_writes _ _ _ _ Hp) as (extra & Hw & Hextra & _ & Hone).
  assert (saved_pk (Article.row self) w = pk) as Hpk
    by (unfold saved_pk; now rewrite Hid).
  rewrite Hpk in *.
  destruct (same_columns_fields _ _ (sp_columns _ _ _ _ Hp))
    as (Ei & _ & _ & Er & Ep & Ee & Ea).
  rewrite Hpk in *.
  destruct (prepare_columns self) as (_ & _ & Hr' & Hp' & He' & Ha').
  simpl in Ei, Er, Ep, Ee, Ea.
  exists self', w', (set_id (Some pk) (Article.row (Article.prepare self))), extra.
  split; [exact Hs|].
  split; [now rewrite <- Ei|].
  split; [now rewrite <- Ep|].
  split; [now rewrite <- Ee|].
  split; [now rewrite <- Ea|].
  split; [now rewrite <- Er|].
  split; [exact Hw|].
  split.
  { constructor; [split; [exact Ha' | reflexivity]|].
    destruct Hextra as [[-> _]| ->]; [constructor|].
    constructor; [|constructor]. split; [now rewrite <- Ea | now rewrite <- Ei]. }
  split; [exact Hone|].
  split; [apply (sp_clock _ _ _ _ Hp)|].
  split; [apply (sp_stored _ _ _ _ Hp); exact Hid|].
  split; [apply (sp_next _ _ _ _ Hp) | apply (sp_previous _ _ _ _ Hp)].
Qed.

Lemma truthy_id_some (pk : Z) : pk <> 0 -> Article.truthy_id (Some pk) = true.
Proof. intros Hpk. simpl. now apply negb_true_iff, Z.eqb_neq. Qed.

Lemma unrendered_ext (r r' : Row) :
  rendered_content r = rendered_content r' ->
  Article.unrendered r = Article.unrendered r'.
Proof. unfold Article.unrendered. now intros ->. Qed.

(** The second half of [__init__]. *)
Lemma init_tail (self : Article.t) (w : World) (pk : Z) :
  id (Article.row self) = Some pk ->
  exists a w' ws,
    (let* self0 := (if Article.unrendered (Article.row self)
                    then Article.save self else ret self) in
     ret self0) w = (Return a, w')
    /\ id (Article.row a) = Some pk
    /\ publish_date (Article.row a) = publish_date (Article.row self)
    /\ expiration_date (Article.row a) = expiration_date (Article.row self)
    /\ is_active (Article.row a) = is_active (Article.row self)
    /\ writes w' = writes w ++ ws
    /\ Forall (fun x => is_active x = is_active (Article.row self) /\ id x = Some pk) ws
    /\ clock w' = clock w
    /\ (Article.unrendered (Article.row self) = false /\ a = self /\ w' = w /\ ws = []
        \/ Article.unrendered (Article.row self) = true /\ ws <> []
           /\ (is_Some (stored pk w) -> stored pk w' = Some (Article.row a)))
    /\ Article._next a = Article._next self
    /\ Article._previous a = Article._previous self.
Proof.
  intros Hid. unfold bind.
  destruct (Article.unrendered (Article.row self)) eqn:Eu.
  - destruct (save_summary self w pk Hid)
      as (a & w' & first & rest & Hs & Hi & Hp & He & Ha & _ & Hw & Hall & _ & Hc & Hst & Hn & Hv).
    rewrite Hs. exists a, w', (first :: rest). unfold ret.
    repeat (split; [first [reflexivity | assumption]|]).
    split; [right; split; [reflexivity | split; [discriminate | exact Hst]]|].
    split; assumption.
  - exists self, w, []. unfold ret.
    do 5 (split; [first [reflexivity | exact Hid]|]).
    split; [now rewrite app_nil_r|]. split; [constructor|]. split; [reflexivity|].
    split; [left; repeat split; reflexivity|]. split; reflexivity.
Qed.

Lemma init_ok (r : Row) (w : World) (pk : Z) :
  id r = Some pk -> pk <> 0 ->
  exists a w' ws,
    Article.__init__ r w = (Return a, w')
    /\ id (Article.row a) = Some pk
    /\ publish_date (Article.row a) = publish_date r
    /\ expiration_date (Article.row a) = expiration_date r
    /\ is_active (Article.row a)
       = is_active r && negb (Article.expired_and_active r (clock w))
    /\ writes w' = writes w ++ ws
    /\ Forall (fun x => is_active x = is_active (Article.row a) /\ id x = Some pk) ws
    /\ clock w' = clock w
    /\ (Article.expired_and_active r (clock w) = true ->
        exists first rest,
          ws = first :: rest
          /\ (Article.blank (keywords r) = false ->
              Article.blank (description r) = false ->
              sites_joined pk w <> [] ->
              Article.unrendered (set_rendered_content (Article.render r) r) = false ->
              rest = []))
    /\ (Article.expired_and_active r (clock w) = false ->
        Article.unrendered r = false -> a = fresh r /\ w' = w)
    /\ (is_Some (stored pk w) -> ws <> [] -> stored pk w' = Some (Article.row a))
    /\ Article._next a = None /\ Article._previous a = None.
Proof.
  intros Hid Hpk. unfold Article.__init__. cbn [Article.row].
  rewrite Hid, (truthy_id_some pk Hpk).
  unfold bind at 1, datetime_now.
  destruct (Article.expired_and_active r (clock w)) eqn:Ex.
  - set (self0 := Article.set_row (set_is_active false r) _).
    destruct (save_summary self0 w pk Hid)
      as (self1 & w1 & first & rest & Hs & Hi & Hp & He & Ha & Hr & Hw & Hall
          & Hone & Hc & Hst & Hn & Hv).
    unfold bind at 1. rewrite Hs.
    destruct (init_tail self1 w1 pk Hi)
      as (a & w' & ws & Ht & Hi' & Hp' & He' & Ha' & Hw' & Hall' & Hc' & Hcase & Hn' & Hv').
    rewrite Ht. exists a, w', (first :: rest ++ ws).
    assert (is_active (Article.row a) = false) as Hfalse by (now rewrite Ha', Ha).
    split; [reflexivity|].
    split; [exact Hi'|].
    split; [now rewrite Hp', Hp|].
    split; [now rewrite He', He|].
    split.
    { rewrite Hfalse. unfold Article.expired_and_active in Ex.
      destruct (expiration_date r); [|discriminate].
      apply andb_prop in Ex as [_ ->]. reflexivity. }
    split; [rewrite Hw', Hw, <- app_assoc; reflexivity|].
    split.
    { rewrite Hfalse, app_comm_cons. apply Forall_app. split.
      - exact Hall.
      - eapply Forall_impl; [exact Hall'|]. intros x [Hx Hx']. split; [|exact Hx'].
        now rewrite Hx, Ha. }
    split; [now rewrite Hc', Hc|].
    split.
    { intros _. exists first, (rest ++ ws). split; [reflexivity|].
      intros Hk Hd Hsites Hu.
      rewrite (Hone Hk Hd Hsites). simpl.
      destruct Hcase as [(_ & _ & _ & ->)|(Hu' & _)]; [reflexivity|].
      rewrite (unrendered_ext _ (set_rendered_content (Article.render r) r)) in Hu'
        by exact Hr.
      congruence. }
    split; [intros; discriminate|].
    split.
    { intros Hsome _.
      destruct Hcase as [(_ & -> & -> & _)|(_ & _ & Hst')]; [now apply Hst|].
      apply Hst'. rewrite (Hst Hsome). eauto. }
    split; [now rewrite Hn', Hn | now rewrite Hv', Hv].
  - destruct (init_tail (Article.mk r None None None) w pk Hid)
      as (a & w' & ws & Ht & Hi' & Hp' & He' & Ha' & Hw' & Hall' & Hc' & Hcase & Hn' & Hv').
    cbn [Article.row Article._next Article._previous] in *.
    exists a, w', ws.
    split; [exact Ht|].
    do 3 (split; [assumption|]).
    split; [now rewrite Ha', andb_true_r|].
    split; [exact Hw'|].
    split.
    { eapply Forall_impl; [exact Hall'|]. intros x [Hx Hx']. split; [|exact Hx'].
      now rewrite Hx, Ha'. }
    split; [exact Hc'|].
    split; [intros; discriminate|].
    split.
    { intros _ Hu. destruct Hcase as [(_ & -> & -> & _)|(Hu' & _)]; [now split|].
      congruence. }
    split.
    { intros Hsome Hne. destruct Hcase as [(_ & _ & _ & ->)|(_ & _ & Hst')];
        [congruence | now apply Hst']. }
    split; assumption.
Qed.

End LoadFacts.

Lemma head_filter_some {A} (p : A -> bool) (l : list A) (x : A) :
  head (List.filter p l) = Some x -> In x l /\ p x = true.
Proof.
  intros Hh. apply filter_In. destruct (List.filter p l) eqn:E; [discriminate|].
  simpl in Hh. injection Hh as ->. now left.
Qed.

Lemma stored_some (pk : Z) (w : World) (r : Row) :
  stored pk w = Some r -> In r (article_table w) /\ id r = Some pk.
Proof.
  intros Hs. apply head_filter_some in Hs as [Hin Hp]. split; [exact Hin|].
  destruct (id r) as [k|]; simpl in Hp; [|discriminate].
  apply Z.eqb_eq in Hp. now subst.
Qed.

Section LoadTheorems.
Context `{Settings} `{Markup}.

Lemma objects_get_stored (pk : Z) (w : World) (r : Row) :
  stored pk w = Some r -> Article.objects_get pk w = Article.__init__ r w.
Proof. intros Hs. unfold Article.objects_get, bind. now rewrite Hs. Qed.

Lemma inactive_not_expired_and_active (r : Row) (t : Z) :
  is_active r = false -> Article.expired_and_active r t = false.
Proof.
  intros Ha. unfold Article.expired_and_active. rewrite Ha.
  destruct (expiration_date r); [apply andb_false_r | reflexivity].
Qed.

End LoadTheorems.

Section LoadWrites.
Context `{Settings} `{Markup}.

(** [save] writes the row once, and once more exactly when it had to fill
    in keywords, description or site. *)
Lemma save_second_write (self : Article.t) (w : World) :
  exists self' w' extra,
    Article.save self w = (Return self', w')
    /\ writes w' = writes w
                   ++ set_id (Some (saved_pk (Article.row self) w))
                        (Article.row (Article.prepare self)) :: extra
    /\ (length extra <= 1)%nat
    /\ (extra = [] <->
        Article.blank (keywords (Article.row self)) = false
        /\ Article.blank (description (Article.row self)) = false
        /\ sites_joined (saved_pk (Article.row self) w) w <> []).
Proof.
  pose proof (prepare_id self) as Hpid.
  pose proof (prepare_keywords self) as Hpkw.
  pose proof (prepare_description self) as Hpd.
  unfold Article.save, bind at 1. rewrite Model_save_eq. cbv zeta.
  rewrite saved_pk_prepare, Hpid.
  set (pk := saved_pk (Article.row self) w).
  set (r1 := set_id (Some pk) (Article.row (Article.prepare self))).
  set (w1 := with_table _ _ _ w).
  unfold bind at 1. rewrite (fill_keywords_eq _ _ _ pk) by reflexivity.
  assert (keywords r1 = keywords (Article.row self)) as Hk1 by exact Hpkw.
  assert (description r1 = description (Article.row self)) as Hd1 by exact Hpd.
  cbn [Article.row Article.set_row]. rewrite Hk1.
  destruct (Article.blank (keywords (Article.row self))) eqn:Ekw;
    unfold bind at 1; rewrite fill_description_eq;
    cbn [Article.row Article.set_row description set_keywords]; rewrite Hd1;
    destruct (Article.blank (description (Article.row self))) eqn:Ed;
    unfold bind at 1.
  all: try match goal with
       | |- context [Article._get_teaser ?x] =>
           destruct (get_teaser_row x) as (Hr & Hn & Hp);
           destruct (Article._get_teaser x) as [text [rt nt pt mt]];
           cbn [fst snd Article.row Article._next Article._previous Article.set_row] in *;
           subst rt nt pt
       end.
  all: rewrite (fill_sites_eq _ _ _ pk) by reflexivity.
  all: change (sites_joined pk w1) with (sites_joined pk w);
    destruct (sites_joined pk w) eqn:Es.
  all: try (unfold bind at 1; rewrite Model_save_eq; cbv zeta).
  all: unfold ret; eexists _, _; subst w1; cbn -[store_row order_by].
  all: first
    [ exists []; split; [reflexivity|];
      split; [reflexivity|];
      split; [simpl; lia|];
      split; [intros _; repeat split; discriminate | reflexivity]
    | eexists [_]; split; [reflexivity|];
      split; [now rewrite <- app_assoc|];
      split; [simpl; lia|];
      split; [discriminate | intros (? & ? & ?); congruence] ].
Qed.

(** The writes of [__init__] on an expired, active row: those of the
    [save] that stores the flag, then those of the [save] that follows when
    the rendering is blank. *)
Lemma init_expired_writes (r : Row) (w : World) (pk : Z) :
  id r = Some pk -> pk <> 0 ->
  Article.expired_and_active r (clock w) = true ->
  exists a w' first second again,
    Article.__init__ r w = (Return a, w')
    /\ writes w' = writes w ++ first :: second ++ again
    /\ (length second <= 1)%nat
    /\ (second = [] <->
        Article.blank (keywords r) = false
        /\ Article.blank (description r) = false
        /\ sites_joined pk w <> [])
    /\ (again = [] <->
        Article.unrendered (set_rendered_content (Article.render r) r) = false).
Proof.
  intros Hid Hpk Ex. unfold Article.__init__. cbn [Article.row].
  rewrite Hid, (truthy_id_some pk Hpk).
  unfold bind at 1, datetime_now. rewrite Ex.
  set (self0 := Article.set_row (set_is_active false r) _).
  destruct (save_second_write self0 w)
    as (self1 & w1 & second & Hs & Hw & Hlen & Hiff).
  destruct (save_summary self0 w pk Hid)
    as (self1' & w1' & _ & _ & Hs' & Hi & _ & _ & _ & Hr & _).
  rewrite Hs in Hs'. injection Hs' as <- <-.
  assert (saved_pk (Article.row self0) w = pk) as Hsp
    by (unfold saved_pk; change (id (Article.row self0)) with (id r);
        now rewrite Hid).
  rewrite Hsp in *.
  unfold bind at 1. rewrite Hs.
  destruct (init_tail self1 w1 pk Hi)
    as (a & w' & again & Ht & _ & _ & _ & _ & Hw' & _ & _ & Hcase & _).
  rewrite Ht.
  exists a, w', (set_id (Some pk) (Article.row (Article.prepare self0))), second, again.
  split; [reflexivity|].
  split; [rewrite Hw', Hw, <- app_assoc; reflexivity|].
  split; [exact Hlen|].
  split; [exact Hiff|].
  rewrite (unrendered_ext _ (set_rendered_content (Article.render r) r)) in Hcase
    by exact Hr.
  destruct Hcase as [(Hu & _ & _ & ->)|(Hu & Hne & _)]; rewrite Hu.
  - split; reflexivity.
  - split; [intros ->; contradiction | discriminate].
Qed.

End LoadWrites.

(** C4 (as amended).  Loading a stored article with a key other than 0 whose
    expiration date is set and in the past and whose [is_active] is true
    returns an instance with [is_active] false and persists the change at
    once by calling [save]: the first row written carries the flag, every
    row written is inactive, and the stored row is the inactive one.  That
    [save] writes a second time exactly when keywords or description are
    blank or the article has no site, and [save] runs once more, writing
    again, exactly when the rendering is blank; so loading makes a single
    write exactly when none of these holds.  The flip happens once: on the
    stored row the test of [__init__] is false at every later instant, and a
    later load returns an inactive instance, writes no active row, and
    writes nothing at all when the stored rendering is not blank. *)
Theorem load_deactivates_expired `{Settings} `{Markup}
        (w : World) (pk e : Z) (r : Row) :
  stored pk w = Some r -> pk <> 0 ->
  expiration_date r = Some e -> e < clock w -> is_active r = true ->
  exists a w' first second again,
    Article.objects_get pk w = (Return a, w')
    /\ is_active (Article.row a) = false
    /\ writes w' = writes w ++ first :: second ++ again
    /\ Forall (fun x => is_active x = false /\ id x = Some pk) (first :: second ++ again)
    /\ stored pk w' = Some (Article.row a)
    /\ (length second <= 1)%nat
    /\ (second = [] <->
        Article.blank (keywords r) = false
        /\ Article.blank (description r) = false
        /\ sites_joined pk w <> [])
    /\ (again = [] <->
        Article.unrendered (set_rendered_content (Article.render r) r) = false)
    /\ (second ++ again = [] <->
        Article.blank (keywords r) = false
        /\ Article.blank (description r) = false
        /\ sites_joined pk w <> []
        /\ Article.unrendered (set_rendered_content (Article.render r) r) = false)
    /\ (forall t, Article.expired_and_active (Article.row a) t = false)
    /\ (forall t, exists a2 w2 ws2,
           Article.objects_get pk (with_clock t w') = (Return a2, w2)
           /\ is_active (Article.row a2) = false
           /\ writes w2 = writes w' ++ ws2
           /\ Forall (fun x => is_active x = false) ws2
           /\ (Article.unrendered (Article.row a) = false -> ws2 = [])).
Proof.
  intros Hs Hpk He Hpast Hact.
  destruct (stored_some pk w r Hs) as [_ Hid].
  assert (Article.expired_and_active r (clock w) = true) as Hx.
  { unfold Article.expired_and_active. rewrite He, Hact, andb_true_r.
    apply Z.leb_le. lia. }
  destruct (init_ok r w pk Hid Hpk)
    as (a & w' & ws & Hi & Hia & _ & _ & Ha & Hw & Hall & _ & _ & _ & Hst & _).
  destruct (init_expired_writes r w pk Hid Hpk Hx)
    as (a' & w'' & first & second & again & Hi' & Hw' & Hlen & Hsecond & Hagain).
  rewrite Hi in Hi'. injection Hi' as <- <-.
  rewrite Hw in Hw'. apply app_inv_head in Hw'. subst ws.
  rewrite Hx, Hact in Ha. simpl in Ha.
  exists a, w', first, second, again.
  split; [now rewrite (objects_get_stored pk w r Hs)|].
  split; [exact Ha|].
  split; [exact Hw|].
  split; [now rewrite Ha in Hall|].
  assert (stored pk w' = Some (Article.row a)) as Hs'.
  { apply Hst; [rewrite Hs; eauto | discriminate]. }
  split; [exact Hs'|].
  split; [exact Hlen|].
  split; [exact Hsecond|].
  split; [exact Hagain|].
  split.
  { split.
    - intros Hnil. apply app_eq_nil in Hnil as [H1 H2].
      apply Hsecond in H1 as (? & ? & ?). apply Hagain in H2. auto.
    - intros (? & ? & ? & Hu).
      rewrite (proj2 Hsecond) by auto. now rewrite (proj2 Hagain Hu). }
  split; [intros t; now apply inactive_not_expired_and_active|].
  intros t.
  assert (stored pk (with_clock t w') = Some (Article.row a)) as Hs2 by exact Hs'.
  destruct (init_ok (Article.row a) (with_clock t w') pk Hia Hpk)
    as (a2 & w2 & ws2 & Hi2 & _ & _ & _ & Ha2 & Hw2 & Hall2 & _ & _ & Hsame & _).
  rewrite Ha in Ha2. simpl in Ha2.
  exists a2, w2, ws2.
  split; [now rewrite (objects_get_stored _ _ _ Hs2)|].
  split; [exact Ha2|].
  split; [exact Hw2|].
  split.
  { eapply Forall_impl; [exact Hall2|]. intros x [Hx2 _]. now rewrite Hx2. }
  intros Hu.
  destruct (Hsame (inactive_not_expired_and_active _ _ Ha) Hu) as [_ ->].
  simpl in Hw2.
  apply (app_inv_head (writes w')). now rewrite <- Hw2, app_nil_r.
Qed.

Lemma load_deactivates_expired_witness :
  stored 5 (expiring_world 50 "news") = Some (expiring5 50 "news")
  /\ 5 <> 0
  /\ expiration_date (expiring5 50 "news") = Some 50
  /\ 50 < clock (expiring_world 50 "news")
  /\ is_active (expiring5 50 "news") = true
  /\ exists a w' first rest,
       Article.objects_get (H := default_settings) (H0 := tagging_markup) 5
         (expiring_world 50 "news") = (Return a, w')
       /\ is_active (Article.row a) = false
       /\ writes w' = writes (expiring_world 50 "news") ++ first :: rest.
Proof.
  assert (stored 5 (expiring_world 50 "news") = Some (expiring5 50 "news")) as Hs
    by reflexivity.
  assert (5 <> 0) as Hpk by lia.
  assert (expiration_date (expiring5 50 "news") = Some 50) as He by reflexivity.
  assert (50 < clock (expiring_world 50 "news")) as Hpast by (simpl; lia).
  assert (is_active (expiring5 50 "news") = true) as Hact by reflexivity.
  do 5 (split; [assumption|]).
  destruct (load_deactivates_expired (H := default_settings) (H0 := tagging_markup)
              _ _ _ _ Hs Hpk He Hpast Hact)
    as (a & w' & first & second & again & Hg & Ha & Hw & _).
  exists a, w', first, (second ++ again). auto.
Defined.

(** C4 as stated fails: an expired, active, stored article without keywords
    is deactivated by loading with two writes, not one. *)
Lemma load_writes_twice :
  stored 5 (expiring_world 50 "") = Some (expiring5 50 "")
  /\ expiration_date (expiring5 50 "") = Some 50
  /\ 50 < clock (expiring_world 50 "")
  /\ is_active (expiring5 50 "") = true
  /\ writes (expiring_world 50 "") = []
  /\ map is_active
       (writes (snd (Article.objects_get (H := default_settings) (H0 := tagging_markup)
                       5 (expiring_world 50 ""))))
     = [false; false].
Proof. repeat split; reflexivity. Qed.

(** C10.  At the instant [t] that equals a stored, active, published
    article's expiration date the two tests disagree: [ArticleManager.active]
    evaluated at [t] lists the article (its filter asks for
    [expiration_date >= t]) while loading it at [t] deactivates it (the test
    of [__init__] asks for [expiration_date <= t]). *)
Theorem expiry_boundary_disagrees `{Settings} `{Markup}
        (w : World) (pk : Z) (r : Row) :
  stored pk w = Some r -> pk <> 0 ->
  expiration_date r = Some (clock w) ->
  publish_date r <= clock w ->
  is_active r = true ->
  ArticleManager.active_Q (clock w) r = true
  /\ Article.expired_and_active r (clock w) = true
  /\ (exists qs, ArticleManager.active w = (Return qs, w) /\ In r qs)
  /\ (exists a w',
        Article.objects_get pk w = (Return a, w')
        /\ is_active (Article.row a) = false
        /\ stored pk w' = Some (Article.row a)).
Proof.
  intros Hs Hpk He Hpub Hact.
  destruct (stored_some pk w r Hs) as [Hin Hid].
  assert (ArticleManager.active_Q (clock w) r = true) as HQ.
  { unfold ArticleManager.active_Q. rewrite He, Hact.
    rewrite Z.leb_refl. simpl. rewrite andb_true_r. now apply Z.leb_le. }
  assert (Article.expired_and_active r (clock w) = true) as Hx.
  { unfold Article.expired_and_active. now rewrite He, Hact, Z.leb_refl. }
  split; [exact HQ|]. split; [exact Hx|]. split.
  - eexists. split; [reflexivity|]. apply filter_In. now split.
  - destruct (init_ok r w pk Hid Hpk)
      as (a & w' & ws & Hi & _ & _ & _ & Ha & _ & _ & _ & Hfirst & _ & Hst & _).
    destruct (Hfirst Hx) as (first & rest & -> & _).
    rewrite Hx, Hact in Ha. exists a, w'.
    split; [now rewrite (objects_get_stored pk w r Hs)|].
    split; [exact Ha|].
    apply Hst; [rewrite Hs; eauto | discriminate].
Qed.

Lemma expiry_boundary_disagrees_witness :
  stored 5 (expiring_world 100 "news") = Some (expiring5 100 "news")
  /\ 5 <> 0
  /\ expiration_date (expiring5 100 "news") = Some (clock (expiring_world 100 "news"))
  /\ publish_date (expiring5 100 "news") <= clock (expiring_world 100 "news")
  /\ is_active (expiring5 100 "news") = true
  /\ ArticleManager.active_Q 100 (expiring5 100 "news") = true
  /\ Article.expired_and_active (expiring5 100 "news") 100 = true.
Proof.
  assert (stored 5 (expiring_world 100 "news") = Some (expiring5 100 "news")) as Hs
    by reflexivity.
  assert (5 <> 0) as Hpk by lia.
  assert (expiration_date (expiring5 100 "news")
          = Some (clock (expiring_world 100 "news"))) as He by reflexivity.
  assert (publish_date (expiring5 100 "news") <= clock (expiring_world 100 "news"))
    as Hpub by (simpl; lia).
  assert (is_active (expiring5 100 "news") = true) as Hact by reflexivity.
  do 5 (split; [assumption|]).
  destruct (expiry_boundary_disagrees (H := default_settings) (H0 := tagging_markup)
              _ _ _ Hs Hpk He Hpub Hact) as (HQ & Hx & _).
  split; [exact HQ | exact Hx].
Defined.

(** ** Navigation *)

Section HeadOfOrderBy.
Context {A : Type} (le : A -> A -> bool).
Hypothesis le_total : forall a b, le a b = true \/ le b a = true.
Hypothesis le_trans : forall a b c, le a b = true -> le b c = true -> le a c = true.

(** The first row of an ordered query set is a least one. *)
Lemma order_by_head (l : list A) (x : A) (rest : list A) :
  order_by le l = x :: rest ->
  In x l /\ forall y, In y l -> le x y = true.
Proof.
  intros E.
  pose proof (order_by_perm le l) as Hperm.
  pose proof (order_by_sorted le le_total l) as Hsorted.
  rewrite E in Hperm, Hsorted.
  assert (Transitive (fun a b => le a b = true)) as Htrans
    by (intros a b c; apply le_trans).
  apply Sorted_StronglySorted in Hsorted; [|exact Htrans].
  apply StronglySorted_inv in Hsorted as [_ Hall].
  split.
  - apply list_elem_of_In. rewrite <- Hperm. left.
  - intros y Hy. apply list_elem_of_In in Hy. rewrite <- Hperm in Hy.
    apply elem_of_cons in Hy as [->|Hy].
    + destruct (le_total x x); assumption.
    + rewrite Forall_forall in Hall. now apply Hall.
Qed.

Lemma order_by_nil (l : list A) : order_by le l = [] -> l = [].
Proof.
  intros E. pose proof (order_by_perm le l) as Hperm. rewrite E in Hperm.
  now apply Permutation_nil in Hperm.
Qed.

End HeadOfOrderBy.

Lemma id_eqb_eq (a b : option Z) : id_eqb a b = true <-> a = b.
Proof.
  destruct a as [x|], b as [y|]; simpl; try (split; congruence).
  rewrite Z.eqb_eq. split; congruence.
Qed.

Lemma active_Q_spec (now : Z) (x : Row) :
  ArticleManager.active_Q now x = true <-> Spec.active_article now x.
Proof.
  unfold ArticleManager.active_Q, Spec.active_article.
  rewrite !andb_true_iff, Z.leb_le.
  destruct (expiration_date x) as [e|].
  - rewrite Z.leb_le. split.
    + intros [[He Hp] Ha]. repeat split; try assumption. intros e' [= <-]. exact He.
    + intros (Hp & He & Ha). repeat split; try assumption. now apply He.
  - split.
    + intros [[_ Hp] Ha]. repeat split; try assumption. discriminate.
    + intros (Hp & _ & Ha). repeat split; assumption.
Qed.

Section NavigationFacts.
Context `{Settings} `{Markup}.

Lemma other_active_eq (self : Article.t) (w : World) :
  Article.other_active self w
  = (Return (List.filter (fun x => negb (id_eqb (id x) (id (Article.row self))))
               (List.filter (ArticleManager.active_Q (clock w)) (article_table w))),
     w).
Proof. reflexivity. Qed.

Lemma later_first_candidates (self : Article.t) (w : World) (x : Row) :
  In x (List.filter (fun x => publish_date (Article.row self) <=? publish_date x)
          (List.filter (fun x => negb (id_eqb (id x) (id (Article.row self))))
             (List.filter (ArticleManager.active_Q (clock w)) (article_table w))))
  <-> Spec.next_candidate w (Article.row self) x.
Proof.
  unfold Spec.next_candidate.
  rewrite !filter_In, active_Q_spec, Z.leb_le, negb_true_iff.
  rewrite <- not_true_iff_false, id_eqb_eq. tauto.
Qed.

Lemma earlier_first_candidates (self : Article.t) (w : World) (x : Row) :
  In x (List.filter (fun x => publish_date x <=? publish_date (Article.row self))
          (List.filter (fun x => negb (id_eqb (id x) (id (Article.row self))))
             (List.filter (ArticleManager.active_Q (clock w)) (article_table w))))
  <-> Spec.previous_candidate w (Article.row self) x.
Proof.
  unfold Spec.previous_candidate.
  rewrite !filter_In, active_Q_spec, Z.leb_le, negb_true_iff.
  rewrite <- not_true_iff_false, id_eqb_eq. tauto.
Qed.

Lemma publish_le_total (a b : Row) :
  Article.publish_le a b = true \/ Article.publish_le b a = true.
Proof. unfold Article.publish_le. rewrite !Z.leb_le. lia. Qed.

Lemma publish_le_trans (a b c : Row) :
  Article.publish_le a b = true -> Article.publish_le b c = true ->
  Article.publish_le a c = true.
Proof. unfold Article.publish_le. rewrite !Z.leb_le. lia. Qed.

Lemma publish_ge_total (a b : Row) :
  Article.publish_ge a b = true \/ Article.publish_ge b a = true.
Proof. unfold Article.publish_ge. rewrite !Z.leb_le. lia. Qed.

Lemma publish_ge_trans (a b c : Row) :
  Article.publish_ge a b = true -> Article.publish_ge b c = true ->
  Article.publish_ge a c = true.
Proof. unfold Article.publish_ge. rewrite !Z.leb_le. lia. Qed.

(** Building the instance of a row returns, and keeps key and publish
    date. *)
Lemma init_returns (r : Row) (w : World) :
  exists a w',
    Article.__init__ r w = (Return a, w')
    /\ id (Article.row a) = id r
    /\ publish_date (Article.row a) = publish_date r.
Proof.
  destruct (Article.truthy_id (id r)) eqn:Et.
  - destruct (id r) as [pk|] eqn:Hid; [|discriminate].
    assert (pk <> 0) as Hpk.
    { simpl in Et. apply negb_true_iff, Z.eqb_neq in Et. exact Et. }
    destruct (init_ok r w pk Hid Hpk) as (a & w' & ws & Hi & Hia & Hp & _).
    exists a, w'. now rewrite Hia.
  - exists (fresh r), w. unfold Article.__init__. cbn [Article.row].
    rewrite Et. now split.
Qed.

End NavigationFacts.

Section NavigationNext.
Context `{Settings} `{Markup}.

Lemma next_article_spec (self : Article.t) (w : World) :
  Article._next self = None ->
  exists res self' w',
    Article.get_next_article self w = (Return (res, self'), w')
    /\ match res with
       | Some a =>
           exists x,
             Spec.next_candidate w (Article.row self) x
             /\ id (Article.row a) = id x
             /\ publish_date (Article.row a) = publish_date x
             /\ forall y, Spec.next_candidate w (Article.row self) y ->
                          publish_date x <= publish_date y
       | None => forall y, ~ Spec.next_candidate w (Article.row self) y
       end.
Proof.
  intros Hn. unfold Article.get_next_article. rewrite Hn.
  unfold bind at 1, try_except_only. unfold bind at 1.
  rewrite other_active_eq. unfold Article.later_first.
  set (cands := List.filter (fun x => publish_date (Article.row self) <=? publish_date x) _).
  destruct (order_by Article.publish_le cands) as [|x rest] eqn:E.
  - exists None, (Article.set_next None self), w. split; [reflexivity|].
    intros y Hy. apply later_first_candidates in Hy. fold cands in Hy.
    apply order_by_nil in E. rewrite E in Hy. exact Hy.
  - destruct (order_by_head _ publish_le_total publish_le_trans _ _ _ E) as [Hx Hmin].
    destruct (init_returns x w) as (a & w' & Hi & Hid & Hp).
    exists (Some a), (Article.set_next (Some a) self), w'.
    split.
    { unfold bind, index0, ret. rewrite Hi. reflexivity. }
    exists x. split; [now apply later_first_candidates|].
    split; [exact Hid|]. split; [exact Hp|].
    intros y Hy. apply later_first_candidates in Hy.
    apply Z.leb_le. now apply Hmin.
Qed.

Lemma previous_article_spec (self : Article.t) (w : World) :
  Article._previous self = None ->
  exists res self' w',
    Article.get_previous_article self w = (Return (res, self'), w')
    /\ match res with
       | Some a =>
           exists x,
             Spec.previous_candidate w (Article.row self) x
             /\ id (Article.row a) = id x
             /\ publish_date (Article.row a) = publish_date x
             /\ forall y, Spec.previous_candidate w (Article.row self) y ->
                          publish_date y <= publish_date x
       | None => forall y, ~ Spec.previous_candidate w (Article.row self) y
       end.
Proof.
  intros Hn. unfold Article.get_previous_article. rewrite Hn.
  unfold bind at 1, try_except_only. unfold bind at 1.
  rewrite other_active_eq. unfold Article.earlier_first.
  set (cands := List.filter (fun x => publish_date x <=? publish_date (Article.row self)) _).
  destruct (order_by Article.publish_ge cands) as [|x rest] eqn:E.
  - exists None, (Article.set_previous None self), w. split; [reflexivity|].
    intros y Hy. apply earlier_first_candidates in Hy. fold cands in Hy.
    apply order_by_nil in E. rewrite E in Hy. exact Hy.
  - destruct (order_by_head _ publish_ge_total publish_ge_trans _ _ _ E) as [Hx Hmin].
    destruct (init_returns x w) as (a & w' & Hi & Hid & Hp).
    exists (Some a), (Article.set_previous (Some a) self), w'.
    split.
    { unfold bind, index0, ret. rewrite Hi. reflexivity. }
    exists x. split; [now apply earlier_first_candidates|].
    split; [exact Hid|]. split; [exact Hp|].
    intros y Hy. apply earlier_first_candidates in Hy.
    apply Z.leb_le. now apply Hmin.
Qed.

(** Three articles at [T1 < T2 < T3], the middle one inactive. *)
Lemma next_skips_inactive (T1 T2 T3 now : Z) :
  T1 < T2 -> T2 < T3 -> T3 <= now ->
  fst (Article.get_next_article (fresh (published 1 T1 true)) (timeline T1 T2 T3 now))
  = Return (Some (fresh (published 3 T3 true)),
            Article.set_next (Some (fresh (published 3 T3 true)))
              (fresh (published 1 T1 true))).
Proof.
  intros H12 H23 H3.
  assert ((T1 <=? now) = true) as E1 by (apply Z.leb_le; lia).
  assert ((T3 <=? now) = true) as E3 by (apply Z.leb_le; lia).
  assert ((T1 <=? T3) = true) as E13 by (apply Z.leb_le; lia).
  unfold Article.get_next_article, Article.other_active, Article.later_first,
    ArticleManager.active, ArticleManager.active_Q, try_except_only, bind, ret,
    datetime_now, timeline, published, fresh.
  cbn -[Z.leb]. rewrite E1, E3, andb_false_r. cbn -[Z.leb]. rewrite E13. reflexivity.
Qed.

End NavigationNext.

(** C7.  On an instance that has no memoized neighbour, [get_next_article]
    returns: when some stored article other than this one is active
    (published by now, not expired, flagged active) and published no earlier
    than this one, the result is such an article with the earliest publish
    date among them, and otherwise it is [None]; [get_previous_article] is
    the mirror image, the latest publish date among those published no later.
    With three articles published at [T1 < T2 < T3 <= now], the middle one
    inactive, the next article of the first is the third. *)
Theorem adjacent_articles `{Settings} `{Markup} (self : Article.t) (w : World) :
  Article._next self = None ->
  Article._previous self = None ->
  (exists res self' w',
      Article.get_next_article self w = (Return (res, self'), w')
      /\ match res with
         | Some a =>
             exists x,
               Spec.next_candidate w (Article.row self) x
               /\ id (Article.row a) = id x
               /\ publish_date (Article.row a) = publish_date x
               /\ forall y, Spec.next_candidate w (Article.row self) y ->
                            publish_date x <= publish_date y
         | None => forall y, ~ Spec.next_candidate w (Article.row self) y
         end)
  /\ (exists res self' w',
         Article.get_previous_article self w = (Return (res, self'), w')
         /\ match res with
            | Some a =>
                exists x,
                  Spec.previous_candidate w (Article.row self) x
                  /\ id (Article.row a) = id x
                  /\ publish_date (Article.row a) = publish_date x
                  /\ forall y, Spec.previous_candidate w (Article.row self) y ->
                               publish_date y <= publish_date x
            | None => forall y, ~ Spec.previous_candidate w (Article.row self) y
            end)
  /\ (forall T1 T2 T3 now,
         T1 < T2 -> T2 < T3 -> T3 <= now ->
         fst (Article.get_next_article (fresh (published 1 T1 true))
                (timeline T1 T2 T3 now))
         = Return (Some (fresh (published 3 T3 true)),
                   Article.set_next (Some (fresh (published 3 T3 true)))
                     (fresh (published 1 T1 true)))).
Proof.
  intros Hn Hp. split; [now apply next_article_spec|].
  split; [now apply previous_article_spec|].
  intros T1 T2 T3 now. apply next_skips_inactive.
Qed.

Lemma adjacent_articles_witness :
  Article._next (fresh (published 1 10 true)) = None
  /\ Article._previous (fresh (published 1 10 true)) = None
  /\ fst (Article.get_next_article (H := default_settings) (H0 := tagging_markup)
            (fresh (published 1 10 true)) (timeline 10 20 30 100))
     = Return (Some (fresh (published 3 30 true)),
               Article.set_next (Some (fresh (published 3 30 true)))
                 (fresh (published 1 10 true))).
Proof.
  assert (Article._next (fresh (published 1 10 true)) = None) as Hn by reflexivity.
  assert (Article._previous (fresh (published 1 10 true)) = None) as Hp by reflexivity.
  split; [exact Hn|]. split; [exact Hp|].
  destruct (adjacent_articles (H := default_settings) (H0 := tagging_markup)
              (fresh (published 1 10 true)) (timeline 10 20 30 100) Hn Hp)
    as (_ & _ & Hthree).
  apply Hthree; lia.
Defined.

Example previous_of_third :
  match returned (Article.get_previous_article
                    (H := default_settings) (H0 := tagging_markup)
                    (fresh (published 3 30 true)) (timeline 10 20 30 100)) with
  | Some (Some a, _) => id (Article.row a)
  | _ => None
  end = Some 1.
Proof. reflexivity. Qed.

(** ** Memoization *)

Section MemoFacts.
Context `{Settings} `{Markup}.

Lemma teaser_memo_kept (self self1 self2 : Article.t) (v : string) :
  Article._get_teaser self = (v, self1) -> v <> "" ->
  Article._teaser self2 = Article._teaser self1 ->
  Article._get_teaser self2 = (v, self2).
Proof.
  unfold Article._get_teaser. intros Hg Hv Hm.
  assert (Article._teaser self1 = Some v) as Hs.
  { destruct (Py.truthy_opt (Article._teaser self)) eqn:Et; simpl in Hg.
    - injection Hg as <- <-.
      destruct (Article._teaser self); [reflexivity | discriminate].
    - injection Hg as <- <-. reflexivity. }
  rewrite Hm, Hs. simpl. destruct v; [congruence | reflexivity].
Qed.

Lemma next_memo_kept (self self1 self2 : Article.t) (w w1 w2 : World) (a : Article.t) :
  Article.get_next_article self w = (Return (Some a, self1), w1) ->
  Article._next self2 = Article._next self1 ->
  Article.get_next_article self2 w2 = (Return (Some a, self2), w2).
Proof.
  intros Hg Hm.
  assert (Article._next self1 = Some a) as Hs.
  { unfold Article.get_next_article in Hg.
    destruct (Article._next self) as [a'|] eqn:En.
    - injection Hg as <- <- <-. exact En.
    - unfold bind in Hg at 1.
      destruct (try_except_only _ _ _ w) as [[res|e] w'];
        [|discriminate].
      injection Hg as -> <- <-. reflexivity. }
  unfold Article.get_next_article. now rewrite Hm, Hs.
Qed.

Lemma previous_memo_kept (self self1 self2 : Article.t) (w w1 w2 : World)
      (a : Article.t) :
  Article.get_previous_article self w = (Return (Some a, self1), w1) ->
  Article._previous self2 = Article._previous self1 ->
  Article.get_previous_article self2 w2 = (Return (Some a, self2), w2).
Proof.
  intros Hg Hm.
  assert (Article._previous self1 = Some a) as Hs.
  { unfold Article.get_previous_article in Hg.
    destruct (Article._previous self) as [a'|] eqn:En.
    - injection Hg as <- <- <-. exact En.
    - unfold bind in Hg at 1.
      destruct (try_except_only _ _ _ w) as [[res|e] w'];
        [|discriminate].
      injection Hg as -> <- <-. reflexivity. }
  unfold Article.get_previous_article. now rewrite Hm, Hs.
Qed.

End MemoFacts.

(** C8 (as amended).  Once an access has returned a non-empty teaser, or an
    article as next or previous neighbour, every later access on the
    instance returns that value again: whatever the fields of the instance
    and the stored articles have become, the call returns the memoized value
    and leaves the instance and the world as they are.  An empty teaser and
    an absent neighbour are not memoized. *)
Theorem memo_kept `{Settings} `{Markup} (self self1 self2 : Article.t) (w w1 w2 : World) :
  Article._teaser self2 = Article._teaser self1 ->
  Article._next self2 = Article._next self1 ->
  Article._previous self2 = Article._previous self1 ->
  (forall v, Article._get_teaser self = (v, self1) -> v <> "" ->
             Article._get_teaser self2 = (v, self2))
  /\ (forall a, Article.get_next_article self w = (Return (Some a, self1), w1) ->
                Article.get_next_article self2 w2 = (Return (Some a, self2), w2))
  /\ (forall a, Article.get_previous_article self w = (Return (Some a, self1), w1) ->
                Article.get_previous_article self2 w2 = (Return (Some a, self2), w2)).
Proof.
  intros Ht Hn Hp. split; [|split].
  - intros v Hg Hv. now apply (teaser_memo_kept self self1).
  - intros a Hg. now apply (next_memo_kept self self1 self2 w w1).
  - intros a Hg. now apply (previous_memo_kept self self1 self2 w w1).
Qed.

Lemma memo_kept_witness :
  Article._teaser (Article.set_row (plain_row None "changed")
                     (snd (Article._get_teaser (H := default_settings)
                             (fresh (plain_row None "to be")))))
  = Article._teaser (snd (Article._get_teaser (H := default_settings)
                            (fresh (plain_row None "to be"))))
  /\ fst (Article._get_teaser (H := default_settings)
            (Article.set_row (plain_row None "changed")
               (snd (Article._get_teaser (H := default_settings)
                       (fresh (plain_row None "to be"))))))
     = "to be".
Proof.
  split; [reflexivity|].
  assert ("to be" <> "") as Hv by discriminate.
  destruct (memo_kept (H := default_settings) (H0 := tagging_markup)
              (fresh (plain_row None "to be"))
              (snd (Article._get_teaser (H := default_settings)
                      (fresh (plain_row None "to be"))))
              (Article.set_row (plain_row None "changed")
                 (snd (Article._get_teaser (H := default_settings)
                         (fresh (plain_row None "to be")))))
              (empty_world 0) (empty_world 0) (empty_world 0)
              eq_refl eq_refl eq_refl) as (Ht & _ & _).
  rewrite (Ht "to be" eq_refl Hv). reflexivity.
Defined.

(** C8 as stated fails: an empty teaser and an absent neighbour are computed
    again on the next access, and the new value follows the changed fields
    and the changed set of active articles. *)
Lemma memo_not_kept_when_empty :
  fst (Article._get_teaser (H := default_settings) (fresh (plain_row None ""))) = ""
  /\ fst (Article._get_teaser (H := default_settings)
            (Article.set_row (plain_row None "late text")
               (snd (Article._get_teaser (H := default_settings)
                       (fresh (plain_row None ""))))))
     = "late text"
  /\ (exists self1,
         fst (Article.get_next_article (H := default_settings) (H0 := tagging_markup)
                (fresh (published 1 10 true)) (timeline 10 20 30 5))
         = Return (None, self1)
         /\ fst (Article.get_next_article (H := default_settings) (H0 := tagging_markup)
                   self1 (timeline 10 20 30 100))
            = Return (Some (fresh (published 3 30 true)),
                      Article.set_next (Some (fresh (published 3 30 true))) self1)).
Proof.
  split; [reflexivity|]. split; [reflexivity|].
  eexists. split; reflexivity.
Qed.

(** ** Links *)

Section LinkFacts.

Lemma fetch_title_eq (url text : string) (w : World) :
  Article.fetch_title url text w
  = (Return (fetched_title w (url, text)), with_fetches (S (fetches w)) w).
Proof.
  unfold Article.fetch_title, try_except, bind, urlopen_read, fetched_title, ret.
  simpl. destruct (network w (fetches w) url) as [html|]; [|reflexivity].
  now destruct (Re.TITLE_RE_search html).
Qed.

(** One turn of the loop, in closed form. *)
Lemma links_step_eq (link : string * string) (links : gmap string string)
      (keys : list string) (w : World) :
  Article.links_step link (links, keys) w
  = match fst <$> cache w !! Article.link_key (fst link) with
    | Some (String c v) =>
        (Return (<[fst link := String c v]> links, add_key (fst link) keys), w)
    | _ =>
        (Return (if Py.truthy (fetched_title w link)
                 then (<[fst link := fetched_title w link]> links,
                       add_key (fst link) keys)
                 else (links, keys)),
         with_cache (<[Article.link_key (fst link) := (fetched_title w link, 604800)]>
                       (cache w))
           (with_fetches (S (fetches w)) w))
    end.
Proof.
  unfold Article.links_step. destruct link as [url text]. cbn [fst snd].
  unfold bind at 1. unfold cache_get at 1.
  destruct (cache w !! Article.link_key url) as [[[|c v] t]|] eqn:Ec; cbn [fmap option_fmap option_map fst Py.truthy_opt Py.truthy negb].
  2: { unfold bind, ret, cache_get. rewrite Ec. reflexivity. }
  all: unfold bind at 1; unfold bind at 1; rewrite fetch_title_eq;
    unfold cache_set, bind, cache_get; cbn [cache with_cache];
    rewrite lookup_insert_eq; cbn [fmap option_fmap option_map fst];
    now destruct (fetched_title w (url, text)).
Qed.

End LinkFacts.

Section LinkLoop.

Lemma truthy_iff (s : string) : Py.truthy s = true <-> s <> "".
Proof. destruct s; simpl; split; congruence. Qed.

Lemma fetched_title_not_empty (w : World) (link : string * string) :
  snd link <> "" -> titles_not_empty w -> fetched_title w link <> "".
Proof.
  intros Ht Hn. unfold fetched_title.
  destruct (network w (fetches w) (fst link)) as [html|] eqn:En; [|exact Ht].
  specialize (Hn _ _ _ En).
  destruct (Re.TITLE_RE_search html) as [t|]; simpl; [congruence | exact Ht].
Qed.

(** One turn of the loop either lists the link under a non-empty title or
    leaves the two variables alone; it lists it whenever the anchor has a
    text and the network serves no empty title. *)
Lemma links_step_summary (link : string * string) (links : gmap string string)
      (keys : list string) (w : World) :
  exists links1 keys1 w1,
    Article.links_step link (links, keys) w = (Return (links1, keys1), w1)
    /\ network w1 = network w
    /\ ((exists v, v <> "" /\ links1 = <[fst link := v]> links
                   /\ keys1 = add_key (fst link) keys)
        \/ (links1 = links /\ keys1 = keys))
    /\ (snd link <> "" -> titles_not_empty w ->
        keys1 = add_key (fst link) keys).
Proof.
  rewrite links_step_eq.
  destruct (fst <$> cache w !! Article.link_key (fst link)) as [[|c v]|].
  2: { eexists _, _, _. split; [reflexivity|]. split; [reflexivity|].
       split; [left; exists (String c v); now repeat split | reflexivity]. }
  all: destruct (Py.truthy (fetched_title w link)) eqn:Et;
    eexists _, _, _; (split; [reflexivity|]); (split; [reflexivity|]); split;
    try (left; eexists; split; [apply truthy_iff; exact Et | now split]);
    try (right; now split);
    try reflexivity;
    intros Ht Hn; pose proof (fetched_title_not_empty w link Ht Hn) as Hne;
    apply truthy_iff in Hne; congruence.
Qed.

Lemma add_key_NoDup (u : string) (keys : list string) :
  NoDup keys -> NoDup (add_key u keys).
Proof.
  intros Hk. unfold add_key. case_bool_decide as Hu; [exact Hk|].
  apply NoDup_app. split; [exact Hk|]. split.
  - intros x Hx Hx'. apply list_elem_of_singleton in Hx'. now subst.
  - apply NoDup_singleton.
Qed.

Lemma add_key_elem (u k : string) (keys : list string) :
  k ∈ add_key u keys <-> k ∈ keys \/ k = u.
Proof.
  unfold add_key. case_bool_decide as Hu.
  - split; [now left|]. intros [Hk| ->]; assumption.
  - rewrite elem_of_app, list_elem_of_singleton. tauto.
Qed.

Lemma links_loop (matches : list (string * string)) :
  forall (links : gmap string string) (keys : list string) (w : World),
  exists links' keys' w',
    for_each matches Article.links_step (links, keys) w = (Return (links', keys'), w')
    /\ (NoDup keys -> NoDup keys')
    /\ (forall k, k ∈ keys' -> k ∈ keys \/ k ∈ map fst matches)
    /\ (titled links keys -> titled links' keys')
    /\ ((forall link, In link matches -> snd link <> "") -> titles_not_empty w ->
        keys' = fold_left (fun ks u => add_key u ks) (map fst matches) keys).
Proof.
  induction matches as [|link matches IH]; intros links keys w.
  - exists links, keys, w. simpl. repeat split; auto.
  - destruct (links_step_summary link links keys w)
      as (links1 & keys1 & w1 & Hs & Hn & Hcase & Hlisted).
    destruct (IH links1 keys1 w1) as (links' & keys' & w' & Hl & Hd & He & Ht & Hk).
    exists links', keys', w'.
    split; [cbn [for_each]; unfold bind at 1; rewrite Hs; exact Hl|].
    split.
    { intros Hnd. apply Hd.
      destruct Hcase as [(v & _ & _ & ->)|(_ & ->)]; [now apply add_key_NoDup|exact Hnd]. }
    split.
    { intros k Hk'. simpl. destruct (He k Hk') as [Hk1|Hm];
        [|right; now right].
      destruct Hcase as [(v & _ & _ & ->)|(_ & ->)]; [|now left].
      apply add_key_elem in Hk1 as [Hk1| ->]; [now left | right; now left]. }
    split.
    { intros Htd. apply Ht.
      destruct Hcase as [(v & Hv & -> & ->)|(-> & ->)]; [|exact Htd].
      intros k Hk'. destruct (decide (k = fst link)) as [->|Hne].
      - exists v. split; [apply lookup_insert_eq | exact Hv].
      - rewrite lookup_insert_ne by congruence.
        apply add_key_elem in Hk' as [Hk'|Hk']; [now apply Htd | contradiction]. }
    intros Htexts Hnet. simpl.
    rewrite <- (Hlisted (Htexts link (or_introl eq_refl)) Hnet).
    apply Hk.
    + intros l Hl'. apply Htexts. now right.
    + unfold titles_not_empty. rewrite Hn. exact Hnet.
Qed.

(** The closing loop copies the titles out of [links]. *)
Lemma sorted_loop (links : gmap string string) (keys : list string) :
  forall (acc : list (string * string)) (w : World),
    (forall k, k ∈ keys -> is_Some (links !! k)) ->
    for_each keys
      (fun key sorted =>
         let* v := Article.getitem links key in ret (sorted ++ [(key, v)]))
      acc w
    = (Return (acc ++ map (fun k => (k, default "" (links !! k))) keys), w).
Proof.
  induction keys as [|k keys IH]; intros acc w Hdom; simpl.
  - now rewrite app_nil_r.
  - destruct (Hdom k) as [v Hv]; [left|].
    unfold bind at 1. unfold bind at 1. unfold Article.getitem at 1. rewrite Hv.
    unfold ret at 1. unfold ret at 1. cbv beta iota.
    rewrite IH by (intros k' Hk'; apply Hdom; now right).
    now rewrite <- app_assoc.
Qed.

Lemma fold_add_key_first_appearances (urls : list string) :
  fold_left (fun ks u => add_key u ks) urls [] = Spec.first_appearances urls.
Proof.
  unfold Spec.first_appearances.
  induction urls as [|u urls IH] using rev_ind; [reflexivity|].
  rewrite fold_left_app, reverse_snoc. cbn [fold_left remove_dups]. rewrite IH.
  unfold add_key.
  destruct (decide_rel elem_of u (reverse urls)) as [Hin|Hnin].
  - rewrite bool_decide_true; [reflexivity|].
    now rewrite elem_of_reverse, elem_of_remove_dups.
  - rewrite bool_decide_false, reverse_cons; [reflexivity|].
    intros Hin. rewrite elem_of_reverse, elem_of_remove_dups in Hin. contradiction.
Qed.

End LinkLoop.

Lemma titled_dom (links : gmap string string) (keys : list string) :
  titled links keys -> forall k, k ∈ keys -> is_Some (links !! k).
Proof. intros Ht k Hk. destruct (Ht k Hk) as (v & Hv & _). eauto. Qed.

Lemma links_returned (self : Article.t) (w : World) :
  exists links keys w',
    Article._get_article_links self w
    = (Return (map (fun k => (k, default "" (links !! k))) keys), w')
    /\ NoDup keys
    /\ (forall k, k ∈ keys ->
                  k ∈ map fst (Re.LINK_RE_finditer (rendered_content (Article.row self))))
    /\ titled links keys
    /\ ((forall link, In link (Re.LINK_RE_finditer (rendered_content (Article.row self))) ->
                      snd link <> "") ->
        titles_not_empty w ->
        keys = Spec.first_appearances
                 (map fst (Re.LINK_RE_finditer (rendered_content (Article.row self))))).
Proof.
  destruct (links_loop (Re.LINK_RE_finditer (rendered_content (Article.row self))) ∅ [] w)
    as (links & keys & w' & Hl & Hd & He & Ht & Hk).
  assert (titled links keys) as Htd.
  { apply Ht. intros k Hk'. now apply elem_of_nil in Hk'. }
  exists links, keys, w'. split.
  { unfold Article._get_article_links, bind at 1. rewrite Hl.
    now rewrite sorted_loop by (apply titled_dom; exact Htd). }
  split; [apply Hd; constructor|].
  split.
  { intros k Hk'. destruct (He k Hk') as [Hn|Hm]; [now apply elem_of_nil in Hn | exact Hm]. }
  split; [exact Htd|].
  intros Htexts Hnet. rewrite (Hk Htexts Hnet).
  apply fold_add_key_first_appearances.
Qed.

Section LinksShown.








End LinksShown.



(** On a page whose second link has no text and cannot be fetched, the first
    and the third link are listed, in that order. *)
Example mixed_page_lists_good_links :
  returned (Article._get_article_links (fresh (plain_row None mixed_links))
              (empty_world 0))
  = Some [("http://x/a", "A"); ("http://x/c", "C")].
Proof. vm_compute. reflexivity. Qed.





(** * Further properties *)

(** ** Tag names, character by character *)

Section CleanByCharacter.

Local Ltac each_char c :=
destruct c as [[] [] [] [] [] [] [] []]; vm_compute; intuition congruence.

Lemma sub_empty_adj (adj : bool) (s : string) :
Re.TAG_RE_sub_from "" adj s = Re.TAG_RE_sub_from "" false s.
Proof. destruct s as [|c s]; simpl; now destruct adj. Qed.

Lemma sub_empty_app (a b : string) :
Re.TAG_RE_sub_from "" false (a +:+ b)
= Re.TAG_RE_sub_from "" false a +:+ Re.TAG_RE_sub_from "" false b.
Proof.
induction a as [|c a IH]; simpl; [reflexivity|].
destruct (Re.TAG_RE_class c); simpl.
- now rewrite !(sub_empty_adj true), IH.
- now rewrite IH.
Qed.

Lemma replace_app (old new : ascii) (a b : string) :
Py.replace old new (a +:+ b) = Py.replace old new a +:+ Py.replace old new b.
Proof. induction a as [|c a IH]; simpl; [reflexivity | now rewrite IH]. Qed.

Lemma lower_app (a b : string) : Py.lower (a +:+ b) = Py.lower a +:+ Py.lower b.
Proof. induction a as [|c a IH]; simpl; [reflexivity | now rewrite IH]. Qed.

(** The closing [strip] of [Tag.clean] never trims anything. *)
Lemma clean_unstripped (n : string) :
Tag.clean n = Py.lower (Re.TAG_RE_sub_from "" false (Py.replace " " "-" n)).
Proof.
unfold Tag.clean, Re.TAG_RE_sub.
apply strip_fix, lower_tag_chars, sub_empty_kept.
Qed.

Lemma clean_app (a b : string) : Tag.clean (a +:+ b) = Tag.clean a +:+ Tag.clean b.
Proof. now rewrite !clean_unstripped, replace_app, sub_empty_app, lower_app. Qed.

Lemma clean_cons (c : ascii) (s : string) :
Tag.clean (String c s) = Tag.clean (String c "") +:+ Tag.clean s.
Proof. apply (clean_app (String c "") s). Qed.

Lemma clean_char_short (c : ascii) : (String.length (Tag.clean (String c "")) <= 1)%nat.
Proof.
destruct c as [[] [] [] [] [] [] [] []]; vm_compute; repeat constructor.
Qed.

Lemma clean_char_lower (c : ascii) :
Tag.clean (String (Py.lower_char c) "") = Tag.clean (String c "").
Proof. each_char c. Qed.

Lemma clean_char_dash (c : ascii) :
Tag.clean (String (if Ascii.eqb c " " then "-"%char else c) "") = Tag.clean (String c "").
Proof. each_char c. Qed.

Lemma clean_char_space (c : ascii) :
Py.isspace c = true -> c <> " "%char -> Tag.clean (String c "") = "".
Proof. each_char c. Qed.

Lemma append_length (a b : string) :
String.length (a +:+ b) = (String.length a + String.length b)%nat.
Proof. induction a as [|c a IH]; simpl; [reflexivity | now rewrite IH]. Qed.

End CleanByCharacter.

(** X1.  [Tag.clean] works character by character: the clean form of a
    concatenation is the concatenation of the clean forms, and a clean form
    is never longer than the name it comes from. *)
Theorem clean_concatenates (a b : string) :
  Tag.clean (a +:+ b) = Tag.clean a +:+ Tag.clean b
  /\ (String.length (Tag.clean a) <= String.length a)%nat.
Proof.
  split; [apply clean_app|].
  induction a as [|c a IH]; [vm_compute; constructor|].
  rewrite clean_cons, append_length. pose proof (clean_char_short c). simpl. lia.
Qed.

(** X2.  [Tag.clean] does not see the case of letters nor the difference
    between a space and a dash: a name, its lower-case form and its form
    with dashes for spaces have the same clean form. *)
Theorem clean_ignores_case_and_spaces (n : string) :
  Tag.clean (Py.lower n) = Tag.clean n
  /\ Tag.clean (Py.replace " " "-" n) = Tag.clean n.
Proof.
  split; induction n as [|c n IH]; try reflexivity; simpl.
  - rewrite clean_cons, (clean_cons c n), IH. f_equal. apply clean_char_lower.
  - rewrite clean_cons, (clean_cons c n), IH. f_equal. apply clean_char_dash.
Qed.

(** X3.  Every space of a name becomes a dash of its clean form, also a
    leading or trailing one, while every other white-space character is
    dropped. *)
Theorem clean_spaces_to_dashes (c : ascii) (s : string) :
  Tag.clean (String " " s) = String "-" (Tag.clean s)
  /\ Tag.clean (s +:+ " ") = Tag.clean s +:+ "-"
  /\ (Py.isspace c = true -> c <> " "%char -> Tag.clean (String c s) = Tag.clean s)
  /\ count_char "-" (Tag.clean s) = (count_char "-" s + count_char " " s)%nat.
Proof.
  split; [now rewrite clean_cons|].
  split; [now rewrite clean_app|].
  split.
  - intros Hs Hc. now rewrite clean_cons, (clean_char_space c Hs Hc).
  - induction s as [|x s IH]; [reflexivity|].
    rewrite clean_cons. cbn [count_char].
    assert (forall a b, count_char "-" (a +:+ b)
                        = (count_char "-" a + count_char "-" b)%nat) as Happ.
    { intros a b. induction a as [|y a IHa]; simpl; [reflexivity|]. rewrite IHa. lia. }
    rewrite Happ, IH.
    assert (count_char "-" (Tag.clean (String x ""))
            = ((if Ascii.eqb x "-" then 1 else 0) + (if Ascii.eqb x " " then 1 else 0))%nat)
      as ->.
    { destruct x as [[] [] [] [] [] [] [] []]; vm_compute; reflexivity. }
    lia.
Qed.

Lemma clean_spaces_to_dashes_witness :
  Py.isspace (ascii_of_nat 9) = true
  /\ ascii_of_nat 9 <> " "%char
  /\ Tag.clean (String (ascii_of_nat 9) "new york") = Tag.clean "new york".
Proof.
  assert (Py.isspace (ascii_of_nat 9) = true) as Hs by reflexivity.
  assert (ascii_of_nat 9 <> " "%char) as Hc by discriminate.
  split; [exact Hs|]. split; [exact Hc|].
  destruct (clean_spaces_to_dashes (ascii_of_nat 9) "new york") as (_ & _ & Hdrop & _).
  exact (Hdrop Hs Hc).
Defined.

Example clean_keeps_outer_spaces : Tag.clean " New York " = "-new-york-".
Proof. reflexivity. Qed.

(** ** Word count *)

Lemma split_length (s : string) :
  length (Py.split " " s) = S (count_char " " s).
Proof.
  induction s as [|c s IH]; [reflexivity|]. simpl.
  destruct (Ascii.eqb c " "); simpl; [now rewrite IH|].
  destruct (Py.split " " s); simpl in *; [discriminate | exact IH].
Qed.

(** X4.  The word count of an article is one more than the number of
    spaces of its rendered content with the tags stripped: it is never zero,
    not even for an article without content, and every further space of a
    run of spaces counts as a word. *)
Theorem word_count_counts_spaces `{TemplateFilters} (self : Article.t) :
  _get_word_count self
  = 1 + Z.of_nat (count_char " " (striptags (rendered_content (Article.row self))))
  /\ 1 <= _get_word_count self.
Proof.
  unfold _get_word_count. rewrite split_length. split; lia.
Qed.

(** ** What [save] derives *)

Section SaveDetails.
Context `{Settings} `{Markup}.

Lemma prepare_teaser (self : Article.t) :
Article._teaser (Article.prepare self) = Article._teaser self.
Proof. unfold Article.prepare. simpl. now destruct (_ && _). Qed.

Lemma prepare_rendered (self : Article.t) :
rendered_content (Article.row (Article.prepare self)) = Article.render (Article.row self).
Proof. unfold Article.prepare. simpl. now destruct (_ && _). Qed.

Lemma teaser_text_ext (r r' : Row) :
description r = description r' -> rendered_content r = rendered_content r' ->
Article.teaser_text r = Article.teaser_text r'.
Proof. unfold Article.teaser_text. now intros -> ->. Qed.

(** The description, the memoized teaser and the site rows after [save]. *)
Lemma save_details (self : Article.t) (w : World) :
exists self' w',
  Article.save self w = (Return self', w')
  /\ description (Article.row self')
     = (if Article.blank (description (Article.row self))
        then if Py.truthy_opt (Article._teaser self)
             then default "" (Article._teaser self)
             else Article.teaser_text
                    (set_rendered_content (Article.render (Article.row self))
                       (Article.row self))
        else description (Article.row self))
  /\ Article._teaser self'
     = (if Article.blank (description (Article.row self))
        then if Py.truthy_opt (Article._teaser self)
             then Article._teaser self
             else Some (Article.teaser_text
                          (set_rendered_content (Article.render (Article.row self))
                             (Article.row self)))
        else Article._teaser self)
  /\ article_sites w'
     = match sites_joined (saved_pk (Article.row self) w) w with
       | [] => List.filter (fun x => negb (fst x =? saved_pk (Article.row self) w))
                 (article_sites w)
               ++ [(saved_pk (Article.row self) w, SITE_ID)]
       | _ :: _ => article_sites w
       end.
Proof.
pose proof (prepare_id self) as Hpid.
pose proof (prepare_keywords self) as Hpkw.
pose proof (prepare_description self) as Hpd.
pose proof (prepare_teaser self) as Hpt.
pose proof (prepare_rendered self) as Hpr.
unfold Article.save, bind at 1. rewrite Model_save_eq. cbv zeta.
rewrite saved_pk_prepare, Hpid.
set (pk := saved_pk (Article.row self) w).
set (r1 := set_id (Some pk) (Article.row (Article.prepare self))).
set (w1 := with_table _ _ _ w).
unfold bind at 1. rewrite (fill_keywords_eq _ _ _ pk) by reflexivity.
assert (keywords r1 = keywords (Article.row self)) as Hk1 by exact Hpkw.
assert (description r1 = description (Article.row self)) as Hd1 by exact Hpd.
cbn [Article.row Article.set_row]. rewrite Hk1.
destruct (Article.blank (keywords (Article.row self))) eqn:Ekw;
  unfold bind at 1; rewrite fill_description_eq;
  cbn [Article.row Article.set_row description set_keywords]; rewrite Hd1;
  destruct (Article.blank (description (Article.row self))) eqn:Ed;
  unfold bind at 1.
all: try (unfold Article._get_teaser;
          cbn [Article._teaser Article.set_row Article.row]; rewrite Hpt;
          destruct (Py.truthy_opt (Article._teaser self)) eqn:Em;
          cbn [negb fst snd Article.row Article.set_row Article.set_teaser
               Article._teaser Article._next Article._previous]).
all: rewrite (fill_sites_eq _ _ _ pk) by reflexivity.
all: change (sites_joined pk w1) with (sites_joined pk w);
  destruct (sites_joined pk w) eqn:Es.
all: try (unfold bind at 1; rewrite Model_save_eq; cbv zeta).
all: unfold ret; eexists _, _; (split; [reflexivity|]).
all: subst w1; cbn -[store_row order_by Article.teaser_text].
all: rewrite ?Hpd, ?Hpt.
all: repeat split; try reflexivity.
all: try (apply teaser_text_ext; [exact Hpd | exact Hpr]).
all: try (f_equal; apply teaser_text_ext; [exact Hpd | exact Hpr]).
Qed.

End SaveDetails.

Section SaveExtras.
Context `{Settings} `{Markup}.

(** The two lemmas on [save] speak of the same result. *)
Lemma save_results (self : Article.t) (w : World) :
exists self' w',
  Article.save self w = (Return self', w')
  /\ save_post self w self' w'
  /\ description (Article.row self')
     = (if Article.blank (description (Article.row self))
        then if Py.truthy_opt (Article._teaser self)
             then default "" (Article._teaser self)
             else Article.teaser_text
                    (set_rendered_content (Article.render (Article.row self))
                       (Article.row self))
        else description (Article.row self))
  /\ Article._teaser self'
     = (if Article.blank (description (Article.row self))
        then if Py.truthy_opt (Article._teaser self)
             then Article._teaser self
             else Some (Article.teaser_text
                          (set_rendered_content (Article.render (Article.row self))
                             (Article.row self)))
        else Article._teaser self)
  /\ article_sites w'
     = match sites_joined (saved_pk (Article.row self) w) w with
       | [] => List.filter (fun x => negb (fst x =? saved_pk (Article.row self) w))
                 (article_sites w)
               ++ [(saved_pk (Article.row self) w, SITE_ID)]
       | _ :: _ => article_sites w
       end.
Proof.
destruct (save_ok self w) as (self' & w' & Hs & Hp).
destruct (save_details self w) as (self2 & w2 & Hs2 & Hd & Ht & Hsites).
rewrite Hs in Hs2. injection Hs2 as <- <-.
exists self', w'. auto.
Qed.

Lemma prepare_addthis (self : Article.t) :
let r := Article.row self in
let p := Article.row (Article.prepare self) in
use_addthis_button p = use_addthis_button r
/\ addthis_use_author p = addthis_use_author r
/\ author p = author r
/\ addthis_username p
   = if use_addthis_button r && addthis_use_author r
        && negb (Py.truthy_opt (addthis_username r))
     then Some (username (author r)) else addthis_username r.
Proof. unfold Article.prepare. simpl. now destruct (_ && _). Qed.

Lemma same_columns_addthis (r r' : Row) :
same_columns r r' ->
use_addthis_button r = use_addthis_button r'
/\ addthis_use_author r = addthis_use_author r'
/\ author r = author r'
/\ addthis_username r = addthis_username r'.
Proof.
unfold same_columns. intros E.
repeat split;
  [ apply (f_equal use_addthis_button) in E | apply (f_equal addthis_use_author) in E
  | apply (f_equal author) in E | apply (f_equal addthis_username) in E ]; exact E.
Qed.

Lemma joined_replaced (pk s : Z) (l : list (Z * Z)) :
map snd (List.filter (fun x => fst x =? pk)
           (List.filter (fun x => negb (fst x =? pk)) l ++ [(pk, s)]))
= [s].
Proof.
rewrite List.filter_app, map_app. simpl. rewrite Z.eqb_refl. simpl.
assert (List.filter (fun x => fst x =? pk)
          (List.filter (fun x => negb (fst x =? pk)) l) = []) as ->; [|reflexivity].
induction l as [|x l IH]; simpl; [reflexivity|].
destruct (fst x =? pk) eqn:E; simpl; [exact IH|]. now rewrite E.
Qed.

Lemma joined_other (pk pk' s : Z) (l : list (Z * Z)) :
pk' <> pk ->
map snd (List.filter (fun x => fst x =? pk')
           (List.filter (fun x => negb (fst x =? pk)) l ++ [(pk, s)]))
= map snd (List.filter (fun x => fst x =? pk') l).
Proof.
intros Hne. rewrite List.filter_app, map_app. simpl.
assert ((pk =? pk') = false) as -> by (apply Z.eqb_neq; congruence).
simpl. rewrite app_nil_r. f_equal.
induction l as [|x l IH]; simpl; [reflexivity|].
destruct (fst x =? pk) eqn:E; simpl.
- apply Z.eqb_eq in E.
  assert ((fst x =? pk') = false) as -> by (apply Z.eqb_neq; congruence).
  exact IH.
- destruct (fst x =? pk'); [now rewrite IH | exact IH].
Qed.

End SaveExtras.

(** X5.  [save] never replaces an AddThis user name that is set: it fills in
    the author's user name only when the button and the use of the author's
    name are both switched on and no name is set, and it leaves the field,
    the two switches and the author alone in every other case. *)
Theorem save_addthis_username `{Settings} `{Markup} (self : Article.t) (w : World) :
  exists self' w',
    Article.save self w = (Return self', w')
    /\ use_addthis_button (Article.row self') = use_addthis_button (Article.row self)
    /\ addthis_use_author (Article.row self') = addthis_use_author (Article.row self)
    /\ author (Article.row self') = author (Article.row self)
    /\ (Py.truthy_opt (addthis_username (Article.row self)) = true ->
        addthis_username (Article.row self') = addthis_username (Article.row self))
    /\ (use_addthis_button (Article.row self) = false
        \/ addthis_use_author (Article.row self) = false ->
        addthis_username (Article.row self') = addthis_username (Article.row self))
    /\ (use_addthis_button (Article.row self) = true ->
        addthis_use_author (Article.row self) = true ->
        Py.truthy_opt (addthis_username (Article.row self)) = false ->
        addthis_username (Article.row self')
        = Some (username (author (Article.row self)))).
Proof.
  destruct (save_ok self w) as (self' & w' & Hs & Hp).
  destruct (same_columns_addthis _ _ (sp_columns _ _ _ _ Hp)) as (Eb & Eu & Ea & En).
  destruct (prepare_addthis self) as (Pb & Pu & Pa & Pn).
  simpl in Eb, Eu, Ea, En.
  exists self', w'. split; [exact Hs|].
  rewrite <- Eb, <- Eu, <- Ea, <- En, Pb, Pu, Pa, Pn.
  repeat split.
  - intros ->. now rewrite andb_false_r.
  - intros [-> | ->]; [reflexivity | now rewrite andb_false_r].
  - now intros -> -> ->.
Qed.

Lemma save_addthis_username_witness :
  use_addthis_button (plain_row None "x") = false
  /\ (fun a => addthis_username (Article.row a)) <$>
       returned (Article.save (H := default_settings) (H0 := tagging_markup)
                   (fresh (plain_row None "x")) (empty_world 0))
     = Some None.
Proof.
  assert (use_addthis_button (plain_row None "x") = false) as Hb by reflexivity.
  split; [exact Hb|].
  destruct (save_addthis_username (H := default_settings) (H0 := tagging_markup)
              (fresh (plain_row None "x")) (empty_world 0))
    as (self' & w' & Hs & _ & _ & _ & _ & Hoff & _).
  unfold returned. rewrite Hs. simpl. now rewrite (Hoff (or_introl Hb)).
Defined.

(** X6.  After [save] the article has a site: when it had none, it is joined
    to the current site and to no other; when it had some, the site rows are
    left exactly as they were.  The sites of every other article are never
    touched. *)
Theorem save_defaults_site `{Settings} `{Markup} (self : Article.t) (w : World) :
  exists self' w',
    Article.save self w = (Return self', w')
    /\ sites_joined (saved_pk (Article.row self) w) w' <> []
    /\ (sites_joined (saved_pk (Article.row self) w) w = [] ->
        sites_joined (saved_pk (Article.row self) w) w' = [SITE_ID])
    /\ (sites_joined (saved_pk (Article.row self) w) w <> [] ->
        article_sites w' = article_sites w)
    /\ (forall pk', pk' <> saved_pk (Article.row self) w ->
                    sites_joined pk' w' = sites_joined pk' w).
Proof.
  destruct (save_details self w) as (self' & w' & Hs & _ & _ & Hsites).
  exists self', w'. split; [exact Hs|].
  unfold sites_joined in *. rewrite Hsites.
  destruct (map snd (List.filter _ (article_sites w))) as [|s l] eqn:Ej.
  - rewrite joined_replaced. repeat split; try congruence.
    intros pk' Hne. now apply joined_other.
  - rewrite Ej. repeat split; congruence.
Qed.

Lemma save_defaults_site_witness :
  sites_joined (saved_pk (plain_row None "x") (empty_world 0)) (empty_world 0) = []
  /\ exists self' w',
       Article.save (H := default_settings) (H0 := tagging_markup)
         (fresh (plain_row None "x")) (empty_world 0) = (Return self', w')
       /\ sites_joined 1 w' = [1].
Proof.
  assert (sites_joined (saved_pk (plain_row None "x") (empty_world 0)) (empty_world 0)
          = []) as Hnone by reflexivity.
  split; [exact Hnone|].
  destruct (save_defaults_site (H := default_settings) (H0 := tagging_markup)
              (fresh (plain_row None "x")) (empty_world 0))
    as (self' & w' & Hs & _ & Hfill & _).
  exists self', w'. split; [exact Hs | exact (Hfill Hnone)].
Defined.

(** X7.  [save] leaves a description that is not blank alone.  A blank
    description is replaced by the teaser: on an instance without memoized
    teaser that is the teaser of the content as just rendered (cut after
    [WORD_LIMIT] tokens), and on an instance with a memoized teaser it is the
    memoized text, whatever the content has become since. *)
Theorem save_fills_description `{Settings} `{Markup} (self : Article.t) (w : World) :
  0 <= WORD_LIMIT ->
  exists self' w',
    Article.save self w = (Return self', w')
    /\ (Article.blank (description (Article.row self)) = false ->
        description (Article.row self') = description (Article.row self))
    /\ (Article.blank (description (Article.row self)) = true ->
        Py.truthy_opt (Article._teaser self) = false ->
        description (Article.row self')
        = Spec.derive_teaser (description (Article.row self))
            (Spec.render (content (Article.row self)) (markup (Article.row self)))
            (Z.to_nat WORD_LIMIT))
    /\ (Article.blank (description (Article.row self)) = true ->
        Py.truthy_opt (Article._teaser self) = true ->
        Some (description (Article.row self')) = Article._teaser self).
Proof.
  intros Hlim.
  destruct (save_details self w) as (self' & w' & Hs & Hd & _).
  exists self', w'. split; [exact Hs|]. rewrite Hd.
  split; [now intros ->|]. split.
  - intros -> ->. rewrite teaser_text_spec by exact Hlim. simpl.
    now rewrite render_spec.
  - intros -> Hm. rewrite Hm.
    destruct (Article._teaser self); [reflexivity | discriminate].
Qed.

Lemma save_fills_description_witness :
  0 <= @WORD_LIMIT default_settings
  /\ (fun a => description (Article.row a)) <$>
       returned (Article.save (H := default_settings) (H0 := tagging_markup)
                   (fresh (plain_row None "to be or not")) (empty_world 0))
     = Some "to be or not".
Proof.
  assert (0 <= @WORD_LIMIT default_settings) as Hlim by (simpl; lia).
  split; [exact Hlim|].
  destruct (save_fills_description (H := default_settings) (H0 := tagging_markup)
              (fresh (plain_row None "to be or not")) (empty_world 0) Hlim)
    as (self' & w' & Hs & _ & Hfill & _).
  unfold returned. rewrite Hs. simpl. rewrite Hfill by reflexivity.
  vm_compute. reflexivity.
Defined.

(** ** Saving again *)

Section SaveAgain.
Context `{Settings} `{Markup}.

Lemma render_ext (r r' : Row) :
markup r = markup r' -> content r = content r' -> Article.render r = Article.render r'.
Proof. unfold Article.render. now intros -> ->. Qed.

Lemma set_rendered_same (r : Row) : set_rendered_content (rendered_content r) r = r.
Proof. now destruct r. Qed.

Lemma set_addthis_same (r : Row) : set_addthis_username (addthis_username r) r = r.
Proof. now destruct r. Qed.

(** [prepare] changes nothing on a row that is rendered and whose AddThis
  name is settled. *)
Lemma prepare_fixed (self : Article.t) :
Article.render (Article.row self) = rendered_content (Article.row self) ->
(use_addthis_button (Article.row self) && addthis_use_author (Article.row self)
 && negb (Py.truthy_opt (addthis_username (Article.row self))) = true ->
 addthis_username (Article.row self) = Some (username (author (Article.row self)))) ->
Article.prepare self = self.
Proof.
intros Hr Ha. unfold Article.prepare. rewrite Hr, set_rendered_same.
assert (Article.set_row (Article.row self) self = self) as Hself by now destruct self.
rewrite Hself.
destruct (_ && _) eqn:Ec; [|reflexivity].
now rewrite <- (Ha eq_refl), set_addthis_same.
Qed.

Lemma same_columns_eq (r r' : Row) :
same_columns r r' -> keywords r = keywords r' -> description r = description r' ->
r = r'.
Proof.
unfold same_columns. destruct r, r'. simpl. intros E -> ->.
now injection E as -> -> -> -> -> -> -> -> -> -> -> -> -> ->.
Qed.

Lemma teaser_text_blank (r r' : Row) :
Article.blank (description r) = true -> Article.blank (description r') = true ->
rendered_content r = rendered_content r' ->
Article.teaser_text r = Article.teaser_text r'.
Proof.
unfold Article.teaser_text, Article.blank. now intros -> -> ->.
Qed.

Lemma falsy_some (s : string) : Py.truthy_opt (Some s) = false -> s = "".
Proof. destruct s; [reflexivity | discriminate]. Qed.

Lemma save_again (self s1 : Article.t) (w w1 : World) :
Article.save self w = (Return s1, w1) ->
exists w2 ws,
  Article.save s1 w1 = (Return s1, w2)
  /\ writes w2 = writes w1 ++ ws
  /\ Forall (fun x => x = Article.row s1) ws
  /\ article_sites w2 = article_sites w1
  /\ article_tags w2 = article_tags w1.
Proof.
intros Hsave.
destruct (save_results self w) as (s1' & w1' & Hs & Hp & Hd & Ht & Hsites).
rewrite Hsave in Hs. injection Hs as <- <-.
set (pk := saved_pk (Article.row self) w) in *.
destruct (same_columns_fields _ _ (sp_columns _ _ _ _ Hp))
  as (Ei & Ec & Em & Er & _).
destruct (same_columns_addthis _ _ (sp_columns _ _ _ _ Hp)) as (Eb & Eu & Ea & En).
destruct (prepare_columns self) as (Pc & Pm & Pr & _).
destruct (prepare_addthis self) as (Pb & Pu & Pa & Pn).
simpl in Ei, Ec, Em, Er, Eb, Eu, Ea, En.
assert (id (Article.row s1) = Some pk) as Hid by (now rewrite <- Ei).
assert (saved_pk (Article.row s1) w1 = pk) as Hpk
  by (unfold saved_pk; now rewrite Hid).
assert (Article.prepare s1 = s1) as Hfix.
{ apply prepare_fixed.
  - rewrite <- Er, Pr. apply render_ext; [now rewrite <- Em, Pm | now rewrite <- Ec, Pc].
  - rewrite <- Eb, <- Eu, <- Ea, <- En, Pb, Pu, Pa, Pn.
    destruct (use_addthis_button (Article.row self)),
      (addthis_use_author (Article.row self)); simpl; try discriminate.
    destruct (Py.truthy_opt (addthis_username (Article.row self))) eqn:Et; simpl;
      [|reflexivity].
    intros Hn. apply negb_true_iff in Hn. congruence. }
destruct (save_results s1 w1) as (s2 & w2 & Hs2 & Hp2 & Hd2 & Ht2 & Hsites2).
rewrite Hpk in *.
pose proof (sp_columns _ _ _ _ Hp2) as Hcol2.
rewrite Hpk, Hfix, (set_id_same _ pk Hid) in Hcol2.
assert (keywords (Article.row s2) = keywords (Article.row s1)) as Hk2.
{ rewrite (sp_keywords _ _ _ _ Hp2), ?Hpk. unfold tags_joined.
  rewrite (sp_tags _ _ _ _ Hp). fold (tags_joined pk w).
  destruct (Article.blank (keywords (Article.row s1))) eqn:Eb1; [|reflexivity].
  rewrite (sp_keywords _ _ _ _ Hp) in Eb1 |- *. fold pk in Eb1 |- *.
  destruct (Article.blank (keywords (Article.row self))) eqn:Eb0; [reflexivity|].
  rewrite Eb0 in Eb1. congruence. }
assert (rendered_content
          (set_rendered_content (Article.render (Article.row s1)) (Article.row s1))
        = rendered_content
            (set_rendered_content (Article.render (Article.row self)) (Article.row self)))
  as Hrr.
{ simpl. apply render_ext; [now rewrite <- Em, Pm | now rewrite <- Ec, Pc]. }
assert (description (Article.row s2) = description (Article.row s1)
        /\ Article._teaser s2 = Article._teaser s1) as [Hd2' Ht2'].
{ rewrite Hd2, Ht2.
  destruct (Article.blank (description (Article.row s1))) eqn:Eb1; [|now split].
  rewrite Hd in Eb1 |- *. rewrite Ht.
  destruct (Article.blank (description (Article.row self))) eqn:Eb0;
    [|congruence].
  destruct (Py.truthy_opt (Article._teaser self)) eqn:Et0.
  - rewrite Et0. now split.
  - set (T := Article.teaser_text
                (set_rendered_content (Article.render (Article.row self))
                   (Article.row self))) in *.
    destruct (Py.truthy_opt (Some T)) eqn:EtT; [now split|].
    assert (Article.teaser_text
              (set_rendered_content (Article.render (Article.row s1)) (Article.row s1))
            = T) as ->.
    { apply teaser_text_blank; [| exact Eb0 | exact Hrr].
      cbn [description set_rendered_content]. rewrite Hd. exact Eb1. }
    apply falsy_some in EtT. now rewrite EtT. }
assert (Article.row s2 = Article.row s1) as Hrow
  by (symmetry; now apply same_columns_eq).
assert (s2 = s1) as ->.
{ pose proof (sp_next _ _ _ _ Hp2) as Hn2. pose proof (sp_previous _ _ _ _ Hp2) as Hv2.
  destruct s1, s2. simpl in *. congruence. }
destruct (sp_writes _ _ _ _ Hp2) as (extra & Hw & Hextra & _).
rewrite Hpk, Hfix, (set_id_same _ pk Hid) in Hw.
exists w2, (Article.row s1 :: extra).
split; [exact Hs2|]. split; [exact Hw|]. split.
{ constructor; [reflexivity|].
  destruct Hextra as [[-> _]| ->]; repeat constructor. }
split; [|apply (sp_tags _ _ _ _ Hp2)].
rewrite Hsites2.
destruct (sites_joined pk w1) eqn:Ej; [|reflexivity].
exfalso. revert Ej. unfold sites_joined. rewrite Hsites.
destruct (sites_joined pk w) eqn:Ej0.
- rewrite joined_replaced. discriminate.
- unfold sites_joined in Ej0. rewrite Ej0. discriminate.
Qed.

End SaveAgain.

(** X8.  Saving the instance that [save] returned changes nothing: the
    second [save] returns the very same instance (fields and memo
    attributes), writes only rows equal to its row, and leaves the site and
    tag rows alone. *)
Theorem save_is_idempotent `{Settings} `{Markup}
        (self s1 : Article.t) (w w1 : World) :
  Article.save self w = (Return s1, w1) ->
  exists w2 ws,
    Article.save s1 w1 = (Return s1, w2)
    /\ writes w2 = writes w1 ++ ws
    /\ Forall (fun x => x = Article.row s1) ws
    /\ article_sites w2 = article_sites w1
    /\ article_tags w2 = article_tags w1.
Proof. apply save_again. Qed.

Lemma save_is_idempotent_witness :
  exists s1 w1,
    Article.save (H := default_settings) (H0 := tagging_markup)
      (fresh article5) (tagged_world ["go"; "rust"]) = (Return s1, w1)
    /\ exists w2 ws,
         Article.save (H := default_settings) (H0 := tagging_markup) s1 w1
         = (Return s1, w2)
         /\ writes w2 = writes w1 ++ ws.
Proof.
  assert (exists s1 w1,
             Article.save (H := default_settings) (H0 := tagging_markup)
               (fresh article5) (tagged_world ["go"; "rust"]) = (Return s1, w1))
    as (s1 & w1 & Hs) by (eexists _, _; lazy; reflexivity).
  exists s1, w1. split; [exact Hs|].
  destruct (save_is_idempotent (H := default_settings) (H0 := tagging_markup)
              _ _ _ _ Hs) as (w2 & ws & Hs2 & Hw & _).
  exists w2, ws. split; [exact Hs2 | exact Hw].
Defined.

(** ** What loading does and does not do *)

Section LoadExtras.
Context `{Settings} `{Markup}.

Lemma save_render_facts (self : Article.t) (w : World) (pk : Z) :
id (Article.row self) = Some pk ->
exists self' w' first rest,
  Article.save self w = (Return self', w')
  /\ id (Article.row self') = Some pk
  /\ content (Article.row self') = content (Article.row self)
  /\ markup (Article.row self') = markup (Article.row self)
  /\ rendered_content (Article.row self') = Article.render (Article.row self)
  /\ writes w' = writes w ++ first :: rest
  /\ (is_Some (stored pk w) -> stored pk w' = Some (Article.row self')).
Proof.
intros Hid.
destruct (save_summary self w pk Hid)
  as (self' & w' & first & rest & Hs & Hi & _ & _ & _ & Hr & Hw & _ & _ & _ & Hst & _).
destruct (save_ok self w) as (self2 & w2 & Hs2 & Hp).
rewrite Hs in Hs2. injection Hs2 as <- <-.
destruct (same_columns_fields _ _ (sp_columns _ _ _ _ Hp)) as (_ & Ec & Em & _).
destruct (prepare_columns self) as (Pc & Pm & _).
simpl in Ec, Em.
exists self', w', first, rest.
split; [exact Hs|]. split; [exact Hi|].
split; [now rewrite <- Ec|]. split; [now rewrite <- Em|].
split; [exact Hr|]. split; [exact Hw | exact Hst].
Qed.

Lemma app_not_self {A} (l ws : list A) : l ++ ws = l -> ws = [].
Proof.
intros E. apply (app_inv_head l). now rewrite E, app_nil_r.
Qed.

(** [__init__] on the fields of a stored row: what is written and what the
  rendering becomes. *)
Lemma init_rendering (r : Row) (w : World) (pk : Z) :
id r = Some pk -> pk <> 0 ->
exists a w' ws,
  Article.__init__ r w = (Return a, w')
  /\ writes w' = writes w ++ ws
  /\ (ws = [] <->
      Article.expired_and_active r (clock w) = false /\ Article.unrendered r = false)
  /\ content (Article.row a) = content r
  /\ markup (Article.row a) = markup r
  /\ rendered_content (Article.row a)
     = (if Article.expired_and_active r (clock w) || Article.unrendered r
        then Article.render r else rendered_content r)
  /\ (ws <> [] -> is_Some (stored pk w) -> stored pk w' = Some (Article.row a)).
Proof.
intros Hid Hpk. unfold Article.__init__. cbn [Article.row].
rewrite Hid, (truthy_id_some pk Hpk).
unfold bind at 1, datetime_now.
destruct (Article.expired_and_active r (clock w)) eqn:Ex.
- set (self0 := Article.set_row (set_is_active false r) _).
  destruct (save_render_facts self0 w pk Hid)
    as (s1 & w1 & f1 & r1 & Hs & Hi & Hc & Hm & Hr & Hw & Hst).
  unfold bind at 1. rewrite Hs. unfold bind at 1.
  destruct (Article.unrendered (Article.row s1)) eqn:Eu.
  + destruct (save_render_facts s1 w1 pk Hi)
      as (s2 & w2 & f2 & r2 & Hs2 & Hi2 & Hc2 & Hm2 & Hr2 & Hw2 & Hst2).
    rewrite Hs2. exists s2, w2, (f1 :: r1 ++ f2 :: r2).
    split; [reflexivity|].
    split; [rewrite Hw2, Hw, <- app_assoc; reflexivity|].
    split; [split; [discriminate | intros [? _]; discriminate]|].
    split; [now rewrite Hc2, Hc|]. split; [now rewrite Hm2, Hm|].
    split.
    { rewrite Hr2. simpl. apply render_ext; [exact Hm | exact Hc]. }
    intros _ Hsome. apply Hst2. rewrite (Hst Hsome). eauto.
  + exists s1, w1, (f1 :: r1).
    split; [reflexivity|]. split; [exact Hw|].
    split; [split; [discriminate | intros [? _]; discriminate]|].
    split; [exact Hc|]. split; [exact Hm|]. split; [exact Hr|].
    intros _ Hsome. now apply Hst.
- unfold bind, ret. cbn [Article.row orb].
  destruct (Article.unrendered r) eqn:Eu.
  + destruct (save_render_facts (Article.mk r None None None) w pk Hid)
      as (s1 & w1 & f1 & r1 & Hs & Hi & Hc & Hm & Hr & Hw & Hst).
    rewrite Hs. exists s1, w1, (f1 :: r1).
    split; [reflexivity|]. split; [exact Hw|].
    split; [split; [discriminate | intros [_ ?]; discriminate]|].
    split; [exact Hc|]. split; [exact Hm|]. split; [exact Hr|].
    intros _ Hsome. now apply Hst.
  + exists (Article.mk r None None None), w, [].
    split; [reflexivity|]. split; [now rewrite app_nil_r|].
    split; [split; [now split | reflexivity]|].
    repeat split. intros Hne. contradiction.
Qed.

End LoadExtras.

(** X9.  Building an instance writes to storage exactly when the row has a
    key and is expired while active, or has no rendering: for a row without
    key or with key 0, or with a rendering and nothing to deactivate, the
    fields are taken as they are and the world is left untouched. *)
Theorem init_writes_only_when_needed `{Settings} `{Markup} (r : Row) (w : World) :
  exists a w',
    Article.__init__ r w = (Return a, w')
    /\ (writes w' = writes w <->
        Article.truthy_id (id r) = false
        \/ (Article.expired_and_active r (clock w) = false
            /\ Article.unrendered r = false))
    /\ (writes w' = writes w -> a = fresh r /\ w' = w).
Proof.
  destruct (Article.truthy_id (id r)) eqn:Et.
  - destruct (id r) as [pk|] eqn:Hid; [|discriminate].
    assert (pk <> 0) as Hpk.
    { simpl in Et. now apply negb_true_iff, Z.eqb_neq in Et. }
    destruct (init_rendering r w pk Hid Hpk) as (a & w' & ws & Hi & Hw & Hiff & _).
    destruct (init_ok r w pk Hid Hpk)
      as (a2 & w2 & ws2 & Hi2 & _ & _ & _ & _ & _ & _ & _ & _ & Hsame & _).
    rewrite Hi in Hi2. injection Hi2 as <- <-.
    exists a, w'. split; [exact Hi|]. rewrite Hw. split.
    + split.
      * intros E. right. apply Hiff. now apply (app_not_self (writes w)).
      * intros [?|Hc]; [discriminate|]. apply Hiff in Hc. now rewrite Hc, app_nil_r.
    + intros E. apply app_not_self in E. apply Hiff in E as [Hx Hu]. now apply Hsame.
  - exists (fresh r), w. unfold Article.__init__. cbn [Article.row]. rewrite Et.
    split; [reflexivity|]. split; [|now split].
    split; [now left | reflexivity].
Qed.

(** X10.  Loading a stored article that has no rendering renders it: the
    instance keeps content and markup, its [rendered_content] is the
    rendering the markup selects, and the row stored under the key is the
    instance's row.  More generally the rendering of a loaded instance is
    the stored one unless loading saved, and the fresh one if it did. *)
Theorem load_renders_when_missing `{Settings} `{Markup}
        (w : World) (pk : Z) (r : Row) :
  stored pk w = Some r -> pk <> 0 ->
  exists a w',
    Article.objects_get pk w = (Return a, w')
    /\ content (Article.row a) = content r
    /\ markup (Article.row a) = markup r
    /\ rendered_content (Article.row a)
       = (if Article.expired_and_active r (clock w) || Article.unrendered r
          then Spec.render (content r) (markup r) else rendered_content r)
    /\ (Article.unrendered r = true -> stored pk w' = Some (Article.row a)).
Proof.
  intros Hs Hpk.
  destruct (stored_some pk w r Hs) as [_ Hid].
  destruct (init_rendering r w pk Hid Hpk)
    as (a & w' & ws & Hi & Hw & Hiff & Hc & Hm & Hr & Hst).
  exists a, w'.
  split; [now rewrite (objects_get_stored pk w r Hs)|].
  split; [exact Hc|]. split; [exact Hm|].
  split; [now rewrite Hr, render_spec|].
  intros Hu. apply Hst; [|rewrite Hs; eauto].
  intros Hnil. apply Hiff in Hnil as [_ Hu']. congruence.
Qed.

Lemma init_writes_only_when_needed_witness :
  Article.truthy_id (id (plain_row None "x")) = false
  /\ Article.__init__ (H := default_settings) (H0 := tagging_markup)
       (plain_row None "x") (empty_world 0)
     = (Return (fresh (plain_row None "x")), empty_world 0).
Proof.
  assert (Article.truthy_id (id (plain_row None "x")) = false) as Hno by reflexivity.
  split; [exact Hno|].
  destruct (init_writes_only_when_needed (H := default_settings) (H0 := tagging_markup)
              (plain_row None "x") (empty_world 0))
    as (a & w' & Hi & Hiff & Hsame).
  destruct (Hsame (proj2 Hiff (or_introl Hno))) as [-> ->]. exact Hi.
Defined.

Lemma load_renders_when_missing_witness :
  stored 5 unrendered_world = Some unrendered5
  /\ 5 <> 0
  /\ exists a w',
       Article.objects_get (H := default_settings) (H0 := tagging_markup) 5
         unrendered_world = (Return a, w')
       /\ rendered_content (Article.row a) = "<p>*x*</p>".
Proof.
  assert (stored 5 unrendered_world = Some unrendered5) as Hs by reflexivity.
  assert (5 <> 0) as Hpk by lia.
  split; [exact Hs|]. split; [exact Hpk|].
  destruct (load_renders_when_missing (H := default_settings) (H0 := tagging_markup)
              _ _ _ Hs Hpk) as (a & w' & Hg & _ & _ & Hr & _).
  exists a, w'. split; [exact Hg|]. rewrite Hr. reflexivity.
Defined.

(** ** The cache of titles *)

Section LinkCache.

Lemma cached_title_truthy (w : World) (url : string) :
cached_title w url <> "" ->
exists c v, fst <$> cache w !! Article.link_key url = Some (String c v)
            /\ cached_title w url = String c v.
Proof.
unfold cached_title.
destruct (fst <$> cache w !! Article.link_key url) as [[|c v]|]; simpl;
  try congruence. eauto.
Qed.

(** One turn of the loop and the world: it changes the cache and the count
  of fetches at most, fetches at most once, writes only under a key that
  holds no title, and only with the timeout of a week. *)
Lemma links_step_world (link : string * string) (links : gmap string string)
    (keys : list string) (w : World) :
exists st1 w1,
  Article.links_step link (links, keys) w = (Return st1, w1)
  /\ (w1 = w
      \/ cached_title w (fst link) = ""
         /\ w1 = with_cache
                   (<[Article.link_key (fst link) := (fetched_title w link, 604800)]>
                      (cache w))
                   (with_fetches (S (fetches w)) w)).
Proof.
rewrite links_step_eq. unfold cached_title.
destruct (fst <$> cache w !! Article.link_key (fst link)) as [[|c v]|];
  eexists _, _; (split; [reflexivity|]); auto.
Qed.

Lemma same_storage_refl (w : World) : same_storage w w.
Proof. unfold same_storage. now destruct w. Qed.

Lemma links_loop_world (matches : list (string * string)) :
forall (st : gmap string string * list string) (w : World),
exists st' w',
  for_each matches Article.links_step st w = (Return st', w')
  /\ same_storage w w'
  /\ (fetches w <= fetches w' <= fetches w + length matches)%nat
  /\ (forall key v t, cache w !! key = Some (v, t) -> v <> "" ->
                      cache w' !! key = Some (v, t))
  /\ (forall key v t, cache w' !! key = Some (v, t) ->
                      cache w !! key = Some (v, t) \/ t = 604800).
Proof.
induction matches as [|link matches IH]; intros [links keys] w.
- exists (links, keys), w. simpl. split; [reflexivity|].
  split; [apply same_storage_refl|]. split; [lia|]. split; auto.
- destruct (links_step_world link links keys w) as (st1 & w1 & Hs & Hw).
  destruct (IH st1 w1) as (st' & w' & Hl & Hsame & Hf & Hkeep & Hnew).
  exists st', w'.
  split; [cbn [for_each]; unfold bind at 1; rewrite Hs; exact Hl|].
  destruct Hw as [->|[Hmiss ->]].
  + split; [exact Hsame|]. split; [simpl; lia|]. split; assumption.
  + split.
    { unfold same_storage in *. rewrite Hsame at 1. now destruct w. }
    split; [simpl in *; lia|]. split.
    * intros key v t Hc Hv. apply Hkeep; [|exact Hv].
      cbn [cache with_cache with_fetches].
      destruct (decide (Article.link_key (fst link) = key)) as [<-|Hne].
      -- exfalso. unfold cached_title in Hmiss. rewrite Hc in Hmiss.
         simpl in Hmiss. contradiction.
      -- now rewrite lookup_insert_ne.
    * intros key v t Hc. destruct (Hnew key v t Hc) as [Hc1| ->]; [|now right].
      cbn [cache with_cache with_fetches] in Hc1.
      destruct (decide (Article.link_key (fst link) = key)) as [<-|Hne].
      -- rewrite lookup_insert_eq in Hc1. injection Hc1 as _ <-. now right.
      -- rewrite lookup_insert_ne in Hc1 by exact Hne. now left.
Qed.

End LinkCache.

(** X11.  Resolving the links touches nothing but the cache and the count of
    fetches: storage, clock and network stay as they are.  It fetches at most
    once for each anchor matched, never replaces a title that the cache
    holds (value and timeout stay), and every entry it adds has the timeout
    of 604800 seconds. *)
Theorem links_touch_the_cache_only (self : Article.t) (w : World) :
  exists res w',
    Article._get_article_links self w = (Return res, w')
    /\ same_storage w w'
    /\ (fetches w <= fetches w'
        <= fetches w
           + length (Re.LINK_RE_finditer (rendered_content (Article.row self))))%nat
    /\ (forall key v t, cache w !! key = Some (v, t) -> v <> "" ->
                        cache w' !! key = Some (v, t))
    /\ (forall key v t, cache w' !! key = Some (v, t) ->
                        cache w !! key = Some (v, t) \/ t = 604800).
Proof.
  destruct (links_loop_world (Re.LINK_RE_finditer (rendered_content (Article.row self)))
              (∅, []) w) as ([links keys] & w' & Hl & Hframe).
  destruct (links_loop (Re.LINK_RE_finditer (rendered_content (Article.row self))) ∅ [] w)
    as (links2 & keys2 & w2 & Hl2 & _ & _ & Ht & _).
  rewrite Hl in Hl2. injection Hl2 as <- <- <-.
  assert (titled links keys) as Htd.
  { apply Ht. intros k Hk. now apply elem_of_nil in Hk. }
  eexists _, w'. split; [|exact Hframe].
  unfold Article._get_article_links, bind at 1. rewrite Hl.
  now rewrite sorted_loop by (apply titled_dom; exact Htd).
Qed.

Lemma links_touch_the_cache_only_witness :
  exists res w',
    Article._get_article_links (fresh (plain_row None two_links)) (empty_world 0)
    = (Return res, w')
    /\ (fetches w' <= 2)%nat
    /\ article_table w' = [].
Proof.
  destruct (links_touch_the_cache_only (fresh (plain_row None two_links)) (empty_world 0))
    as (res & w' & Hr & Hsame & Hf & _).
  exists res, w'. split; [exact Hr|].
  assert (length (Re.LINK_RE_finditer
                    (rendered_content (Article.row (fresh (plain_row None two_links)))))
          = 2%nat) as Hlen by (vm_compute; reflexivity).
  rewrite Hlen in Hf. split; [exact (proj2 Hf)|].
  rewrite Hsame. reflexivity.
Defined.

Section LinkHits.

(** The loop when every link is in the cache: nothing is fetched and
  nothing is stored. *)
Lemma links_loop_hits (matches : list (string * string)) (w : World) :
(forall link, In link matches -> cached_title w (fst link) <> "") ->
forall (links : gmap string string) (keys : list string),
exists links',
  for_each matches Article.links_step (links, keys) w
  = (Return (links', fold_left (fun ks u => add_key u ks) (map fst matches) keys), w)
  /\ (forall u, u ∈ map fst matches -> links' !! u = Some (cached_title w u))
  /\ (forall u, u ∉ map fst matches -> links' !! u = links !! u).
Proof.
induction matches as [|link matches IH]; intros Hhit links keys.
- exists links. simpl. split; [reflexivity|]. split; [|reflexivity].
  intros u Hu. now apply elem_of_nil in Hu.
- destruct (cached_title_truthy w (fst link) (Hhit link (or_introl eq_refl)))
    as (c & v & Hc & Ht).
  destruct (IH (fun l Hl => Hhit l (or_intror Hl))
              (<[fst link := String c v]> links) (add_key (fst link) keys))
    as (links' & Hl & Hin & Hout).
  exists links'. split.
  { cbn [for_each]. unfold bind at 1. rewrite links_step_eq, Hc. exact Hl. }
  split.
  + intros u Hu. cbn [map] in Hu.
    destruct (decide (u ∈ map fst matches)) as [Hm|Hm]; [now apply Hin|].
    apply elem_of_cons in Hu as [->|Hu]; [|contradiction].
    rewrite (Hout _ Hm), lookup_insert_eq. now rewrite Ht.
  + intros u Hu. cbn [map] in Hu. apply not_elem_of_cons in Hu as [Hne Hm].
    rewrite (Hout _ Hm). now rewrite lookup_insert_ne by congruence.
Qed.

Lemma first_appearances_elem (urls : list string) (u : string) :
u ∈ Spec.first_appearances urls <-> u ∈ urls.
Proof.
unfold Spec.first_appearances.
now rewrite elem_of_reverse, elem_of_remove_dups, elem_of_reverse.
Qed.

Lemma links_all_cached (self : Article.t) (w : World) :
(forall link, In link (Re.LINK_RE_finditer (rendered_content (Article.row self))) ->
              cached_title w (fst link) <> "") ->
Article._get_article_links self w
= (Return (map (fun u => (u, cached_title w u))
             (Spec.first_appearances
                (map fst (Re.LINK_RE_finditer (rendered_content (Article.row self)))))),
   w).
Proof.
intros Hhit.
destruct (links_loop_hits _ w Hhit ∅ []) as (links' & Hl & Hin & _).
unfold Article._get_article_links, bind at 1. rewrite Hl.
rewrite fold_add_key_first_appearances.
rewrite sorted_loop.
- simpl. do 2 f_equal. apply map_ext_in. intros u Hu.
  rewrite <- list_elem_of_In, first_appearances_elem in Hu. now rewrite (Hin u Hu).
- intros k Hk. rewrite first_appearances_elem in Hk. rewrite (Hin k Hk). eauto.
Qed.

End LinkHits.

(** X12.  When the cache holds a non-empty title for every URL matched,
    resolving the links fetches nothing and stores nothing: the world is left
    as it is, and the result lists each distinct URL once, in the order of
    first appearance, under the title the cache holds. *)
Theorem links_served_from_cache (self : Article.t) (w : World) :
  (forall link, In link (Re.LINK_RE_finditer (rendered_content (Article.row self))) ->
                cached_title w (fst link) <> "") ->
  Article._get_article_links self w
  = (Return (map (fun u => (u, cached_title w u))
               (Spec.first_appearances
                  (map fst (Re.LINK_RE_finditer (rendered_content (Article.row self)))))),
     w).
Proof. apply links_all_cached. Qed.

Lemma links_served_from_cache_witness :
  (forall link,
      In link (Re.LINK_RE_finditer
                 (rendered_content (Article.row (fresh (plain_row None two_links))))) ->
      cached_title warm_world (fst link) <> "")
  /\ Article._get_article_links (fresh (plain_row None two_links)) warm_world
     = (Return [("http://x/a", "Alpha"); ("http://x/b", "Beta")], warm_world).
Proof.
  assert (Re.LINK_RE_finditer
            (rendered_content (Article.row (fresh (plain_row None two_links))))
          = [("http://x/a", "A"); ("http://x/b", "B")]) as Hm
    by (vm_compute; reflexivity).
  assert (forall link,
             In link (Re.LINK_RE_finditer
                        (rendered_content (Article.row (fresh (plain_row None two_links))))) ->
             cached_title warm_world (fst link) <> "") as Hhit.
  { intros link Hin. rewrite Hm in Hin.
    destruct Hin as [<-|[<-|[]]]; vm_compute; discriminate. }
  split; [exact Hhit|].
  rewrite (links_served_from_cache _ _ Hhit), Hm.
  vm_compute. reflexivity.
Defined.

Section LinkWarm.

Lemma links_step_warm (link : string * string) (links : gmap string string)
    (keys : list string) (w : World) :
snd link <> "" -> titles_not_empty w ->
exists w1,
  Article.links_step link (links, keys) w
  = (Return (<[fst link := cached_title w1 (fst link)]> links,
             add_key (fst link) keys), w1)
  /\ network w1 = network w
  /\ cached_title w1 (fst link) <> ""
  /\ (forall k, cached_title w k <> "" -> cached_title w1 k = cached_title w k).
Proof.
intros Htext Hnet. rewrite links_step_eq.
pose proof (fetched_title_not_empty w link Htext Hnet) as Hft.
destruct (fst <$> cache w !! Article.link_key (fst link)) as [[|c v]|] eqn:Ec.
2: { exists w. unfold cached_title. rewrite Ec. simpl.
     split; [reflexivity|]. split; [reflexivity|]. split; [discriminate | auto]. }
all: apply truthy_iff in Hft as Hft'; rewrite Hft';
  set (w1 := with_cache
               (<[Article.link_key (fst link) := (fetched_title w link, 604800)]>
                  (cache w))
               (with_fetches (S (fetches w)) w));
  assert (cached_title w1 (fst link) = fetched_title w link) as Hc1
    by (unfold cached_title, w1; cbn [cache with_cache];
        now rewrite lookup_insert_eq);
  exists w1; rewrite Hc1;
  (split; [reflexivity|]); (split; [reflexivity|]); (split; [exact Hft|]);
  intros k Hk; unfold cached_title, w1 in *; cbn [cache with_cache with_fetches];
  (destruct (decide (Article.link_key (fst link) = Article.link_key k)) as [E|E];
   [ rewrite <- E, Ec in Hk; simpl in Hk; congruence
   | now rewrite lookup_insert_ne ]).
Qed.

(** The loop when every anchor has a text and no page an empty title: each
  link is listed, under the title the cache holds afterwards. *)
Lemma links_loop_warm (matches : list (string * string)) :
forall (links : gmap string string) (keys : list string) (w : World),
  (forall link, In link matches -> snd link <> "") ->
  titles_not_empty w ->
  (forall k, k ∈ keys -> links !! k = Some (cached_title w k) /\ cached_title w k <> "") ->
  exists links' w',
    for_each matches Article.links_step (links, keys) w
    = (Return (links', fold_left (fun ks u => add_key u ks) (map fst matches) keys), w')
    /\ (forall k, cached_title w k <> "" -> cached_title w' k = cached_title w k)
    /\ (forall u, u ∈ map fst matches -> cached_title w' u <> "")
    /\ (forall k, k ∈ fold_left (fun ks u => add_key u ks) (map fst matches) keys ->
                  links' !! k = Some (cached_title w' k)).
Proof.
induction matches as [|link matches IH]; intros links keys w Htexts Hnet Hinv.
- exists links, w. simpl. split; [reflexivity|]. split; [auto|]. split.
  + intros u Hu. now apply elem_of_nil in Hu.
  + intros k Hk. now apply Hinv.
- destruct (links_step_warm link links keys w (Htexts link (or_introl eq_refl)) Hnet)
    as (w1 & Hs & Hn & Hu & Hmono).
  destruct (IH (<[fst link := cached_title w1 (fst link)]> links)
              (add_key (fst link) keys) w1)
    as (links' & w' & Hl & Hmono' & Hall & Hinv').
  { intros l Hl. apply Htexts. now right. }
  { unfold titles_not_empty. rewrite Hn. exact Hnet. }
  { intros k Hk. destruct (decide (k = fst link)) as [->|Hne].
    - rewrite lookup_insert_eq. now split.
    - rewrite lookup_insert_ne by congruence.
      apply add_key_elem in Hk as [Hk|Hk]; [|contradiction].
      destruct (Hinv k Hk) as [Hlk Hck]. rewrite (Hmono k Hck). now split. }
  exists links', w'.
  split; [cbn [for_each]; unfold bind at 1; rewrite Hs; exact Hl|].
  split.
  { intros k Hk. rewrite <- (Hmono k Hk). apply Hmono'. now rewrite (Hmono k Hk). }
  split; [|exact Hinv'].
  intros u Hu'. cbn [map] in Hu'. apply elem_of_cons in Hu' as [->|Hu'].
  + now rewrite (Hmono' _ Hu).
  + now apply Hall.
Qed.

End LinkWarm.

(** X13.  When every matched anchor has a text and the network serves no
    page with an empty title, resolving the links a second time finds every
    title in the cache: the second call returns the result of the first and
    leaves the world as the first call left it, so it fetches nothing. *)
Theorem links_second_call_is_cached (self : Article.t) (w : World) :
  (forall link, In link (Re.LINK_RE_finditer (rendered_content (Article.row self))) ->
                snd link <> "") ->
  titles_not_empty w ->
  exists res w1,
    Article._get_article_links self w = (Return res, w1)
    /\ Article._get_article_links self w1 = (Return res, w1).
Proof.
  intros Htexts Hnet.
  destruct (links_loop_warm _ ∅ [] w Htexts Hnet) as (links' & w1 & Hl & _ & Hall & Hinv).
  { intros k Hk. now apply elem_of_nil in Hk. }
  rewrite fold_add_key_first_appearances in Hl, Hinv.
  assert (forall link,
             In link (Re.LINK_RE_finditer (rendered_content (Article.row self))) ->
             cached_title w1 (fst link) <> "") as Hhit.
  { intros link Hin. apply Hall, list_elem_of_In, in_map, Hin. }
  eexists _, w1. split; [|apply (links_all_cached self w1 Hhit)].
  unfold Article._get_article_links, bind at 1. rewrite Hl.
  rewrite sorted_loop.
  - simpl. do 2 f_equal. apply map_ext_in. intros u Hu.
    rewrite <- list_elem_of_In in Hu. now rewrite (Hinv u Hu).
  - intros k Hk. rewrite (Hinv k Hk). eauto.
Qed.

Lemma links_second_call_is_cached_witness :
  (forall link,
      In link (Re.LINK_RE_finditer
                 (rendered_content (Article.row (fresh (plain_row None two_links))))) ->
      snd link <> "")
  /\ titles_not_empty (empty_world 0)
  /\ exists res w1,
       Article._get_article_links (fresh (plain_row None two_links)) (empty_world 0)
       = (Return res, w1)
       /\ Article._get_article_links (fresh (plain_row None two_links)) w1
          = (Return res, w1).
Proof.
  assert (Re.LINK_RE_finditer
            (rendered_content (Article.row (fresh (plain_row None two_links))))
          = [("http://x/a", "A"); ("http://x/b", "B")]) as Hm
    by (vm_compute; reflexivity).
  assert (forall link,
             In link (Re.LINK_RE_finditer
                        (rendered_content (Article.row (fresh (plain_row None two_links))))) ->
             snd link <> "") as Htexts.
  { intros link Hin. rewrite Hm in Hin. destruct Hin as [<-|[<-|[]]]; discriminate. }
  assert (titles_not_empty (empty_world 0)) as Hnet.
  { intros n url html Hn. discriminate. }
  split; [exact Htexts|]. split; [exact Hnet|].
  exact (links_second_call_is_cached _ _ Htexts Hnet).
Defined.

(** ** The window of activity *)

Lemma listed_at_iff (w : World) (t : Z) (r : Row) :
  listed_at w t r <-> In r (article_table w) /\ ArticleManager.active_Q t r = true.
Proof.
  unfold listed_at. simpl. split.
  - intros (qs & [= <-] & Hin). now apply filter_In in Hin.
  - intros Hin. eexists. split; [reflexivity|]. now apply filter_In.
Qed.

(** X14.  The instants at which a stored article counts as active form one
    interval: an article active at two instants is active at every instant
    between them.  An article whose expiration date lies before its publish
    date, or whose [is_active] is false, is active at no instant; and an
    article is not active before its publish date nor after its expiration
    date. *)
Theorem active_window (w : World) (r : Row) :
  (forall t1 t2 t3, t1 <= t2 <= t3 ->
                    listed_at w t1 r -> listed_at w t3 r -> listed_at w t2 r)
  /\ (forall e t, expiration_date r = Some e -> e < publish_date r -> ~ listed_at w t r)
  /\ (forall t, is_active r = false -> ~ listed_at w t r)
  /\ (forall t, t < publish_date r -> ~ listed_at w t r)
  /\ (forall e t, expiration_date r = Some e -> e < t -> ~ listed_at w t r).
Proof.
  assert (forall t, ArticleManager.active_Q t r = true <->
                    match expiration_date r with Some e => t <= e | None => True end
                    /\ publish_date r <= t /\ is_active r = true) as HQ.
  { intros t. unfold ArticleManager.active_Q.
    rewrite !andb_true_iff, Z.leb_le.
    destruct (expiration_date r); [rewrite Z.leb_le|]; tauto. }
  repeat split.
  - intros t1 t2 t3 Ht H1 H3. apply listed_at_iff in H1 as [Hin H1].
    apply listed_at_iff in H3 as [_ H3]. apply listed_at_iff. split; [exact Hin|].
    apply HQ in H1, H3. apply HQ.
    destruct (expiration_date r); intuition lia.
  - intros e t He Hlt Hl. apply listed_at_iff in Hl as [_ Hl]. apply HQ in Hl.
    rewrite He in Hl. lia.
  - intros t Ha Hl. apply listed_at_iff in Hl as [_ Hl]. apply HQ in Hl.
    destruct Hl as (_ & _ & Hl). congruence.
  - intros t Hlt Hl. apply listed_at_iff in Hl as [_ Hl]. apply HQ in Hl. lia.
  - intros e t He Hlt Hl. apply listed_at_iff in Hl as [_ Hl]. apply HQ in Hl.
    rewrite He in Hl. lia.
Qed.

Lemma active_window_witness :
  20 <= 50 <= 100
  /\ listed_at (expiring_world 100 "news") 20 (expiring5 100 "news")
  /\ listed_at (expiring_world 100 "news") 100 (expiring5 100 "news")
  /\ listed_at (expiring_world 100 "news") 50 (expiring5 100 "news").
Proof.
  assert (20 <= 50 <= 100) as Ht by lia.
  assert (listed_at (expiring_world 100 "news") 20 (expiring5 100 "news")) as H1.
  { eexists. split; [reflexivity|]. now left. }
  assert (listed_at (expiring_world 100 "news") 100 (expiring5 100 "news")) as H3.
  { eexists. split; [reflexivity|]. now left. }
  split; [exact Ht|]. split; [exact H1|]. split; [exact H3|].
  destruct (active_window (expiring_world 100 "news") (expiring5 100 "news"))
    as (Hconvex & _).
  exact (Hconvex 20 50 100 Ht H1 H3).
Defined.

(** ** What [LINK_RE] captures *)

Section LinkGroups.

Local Abbreviation K4 g1 :=
(fun g2 s8 => s9 ← Re.lit "</a>" s8; Some (Re.unrev g1, Re.unrev g2, s9)).
Local Abbreviation K3 g1 :=
(fun (_ : string) s6 => s7 ← Re.lit ">" s6; Re.lazy_dots (K4 g1) EmptyString s7).
Local Abbreviation K2 :=
(fun g1 s4 => s5 ← Re.lit Re.quote s4; Re.lazy_dots (K3 g1) EmptyString s5).
Local Abbreviation K1 :=
(fun (_ : string) s2 =>
   s3 ← Re.lit ("href=" +:+ Re.quote) s2; Re.lazy_dots K2 EmptyString s3).

(** Whether a lazy run finds a match does not depend on what it has
  consumed so far, when that is so for what follows it. *)
Lemma lazy_dots_succeeds {R R'} (k : string -> string -> option R)
    (k' : string -> string -> option R') :
(forall a a' s, is_Some (k a s) -> is_Some (k' a' s)) ->
forall s a a', is_Some (Re.lazy_dots k a s) -> is_Some (Re.lazy_dots k' a' s).
Proof.
intros Hk. induction s as [|c s IH]; intros a a'; simpl.
- destruct (k a "") eqn:E; [|intros [? [=]]].
  intros _. destruct (Hk a a' "") as [r' ->]; eauto.
- destruct (k a (String c s)) eqn:E.
  + intros _. destruct (Hk a a' (String c s)) as [r' ->]; eauto.
  + destruct (Ascii.eqb c Re.newline); [intros [? [=]]|].
    intros Hs. destruct (k' a' (String c s)); [eauto|]. now apply (IH (String c a)).
Qed.

Lemma K4_succeeds (g g' a a' s : string) :
is_Some ((K4 g) a s) -> is_Some ((K4 g') a' s).
Proof.
cbv beta. destruct (Re.lit "</a>" s); cbn [mbind option_bind];
  [intros _; eexists; reflexivity | intros Hn; exact Hn].
Qed.

Lemma K3_succeeds (g g' a a' s : string) :
is_Some ((K3 g) a s) -> is_Some ((K3 g') a' s).
Proof.
cbv beta. destruct (Re.lit ">" s) as [s7|]; cbn [mbind option_bind];
  [|intros Hn; exact Hn].
apply lazy_dots_succeeds. intros b b' t. apply K4_succeeds.
Qed.

(** A lazy run that starts one character earlier still finds a match. *)
Lemma lazy_dots_earlier {R} (k : string -> string -> option R) (c : ascii) :
(forall a a' s, is_Some (k a s) -> is_Some (k a' s)) ->
c <> Re.newline ->
forall s a a', is_Some (Re.lazy_dots k a s) -> is_Some (Re.lazy_dots k a' (String c s)).
Proof.
intros Hk Hc s a a' Hs. simpl.
destruct (k a' (String c s)); [eauto|].
destruct (Ascii.eqb_spec c Re.newline) as [E|_]; [contradiction|].
now apply (lazy_dots_succeeds k k Hk s a).
Qed.

Lemma lit_quote_inv (s s5 : string) :
Re.lit Re.quote s = Some s5 -> s = String dquote s5.
Proof.
intros Hl. destruct s as [|c s]; [vm_compute in Hl; discriminate|].
destruct c as [[] [] [] [] [] [] [] []]; vm_compute in Hl; try discriminate.
now injection Hl as ->.
Qed.

Lemma K3_earlier (g : string) (c : ascii) (s : string) :
c <> Re.newline ->
is_Some (Re.lazy_dots (K3 g) EmptyString s) ->
is_Some (Re.lazy_dots (K3 g) EmptyString (String c s)).
Proof.
intros Hc Hs.
apply (lazy_dots_earlier (K3 g) c (fun b b' t => K3_succeeds g g b b' t) Hc s "" "" Hs).
Qed.

Lemma not_is_Some_None {A} : ~ is_Some (@None A).
Proof. intros [x Hx]. discriminate. Qed.

(** If the rest of the pattern matches somewhere behind a quote, then what
  follows the quote matches right behind it. *)
Lemma K2_later (g : string) :
forall s a, is_Some (Re.lazy_dots K2 a s) ->
            is_Some (Re.lazy_dots (K3 g) EmptyString s).
Proof.
induction s as [|c s IH]; intros a Hs; cbn [Re.lazy_dots] in Hs; cbv beta in Hs.
- change (Re.lit Re.quote "") with (@None string) in Hs.
  cbn [mbind option_bind] in Hs. now apply not_is_Some_None in Hs.
- destruct (Re.lit Re.quote (String c s)) as [s5|] eqn:El;
    cbn [mbind option_bind] in Hs.
  + apply lit_quote_inv in El. injection El as -> <-.
    apply K3_earlier; [discriminate|].
    destruct (Re.lazy_dots (K3 a) "" s) eqn:E5.
    * apply (lazy_dots_succeeds (K3 a) (K3 g) (fun b b' t => K3_succeeds a g b b' t)
               s "" ""). rewrite E5. eauto.
    * change (Ascii.eqb dquote Re.newline) with false in Hs. cbv iota in Hs.
      now apply IH in Hs.
  + destruct (Ascii.eqb_spec c Re.newline) as [E|Hc];
      [now apply not_is_Some_None in Hs|].
    apply K3_earlier; [exact Hc|]. now apply IH in Hs.
Qed.

Lemma count_rev_onto (c : ascii) (a b : string) :
count_char c (Re.rev_onto a b) = (count_char c a + count_char c b)%nat.
Proof.
revert b. induction a as [|x a IH]; intros b; simpl; [reflexivity|].
rewrite IH. simpl. lia.
Qed.

Lemma free_of_unrev (c : ascii) (a : string) : free_of c a -> free_of c (Re.unrev a).
Proof. unfold free_of, Re.unrev. rewrite count_rev_onto. simpl. lia. Qed.

Lemma free_of_cons (c x : ascii) (a : string) :
x <> c -> free_of c a -> free_of c (String x a).
Proof.
unfold free_of. simpl. intros Hx Ha.
destruct (Ascii.eqb_spec x c); [contradiction | exact Ha].
Qed.

Lemma lazy_dots_inv {R} (k : string -> string -> option R) :
forall s a r, Re.lazy_dots k a s = Some r -> exists a' s', k a' s' = Some r.
Proof.
induction s as [|c s IH]; intros a r Hs; cbn [Re.lazy_dots] in Hs.
- destruct (k a "") eqn:E; [|discriminate]. injection Hs as <-. eauto.
- destruct (k a (String c s)) eqn:E; [injection Hs as <-; eauto|].
  destruct (Ascii.eqb c Re.newline); [discriminate|]. eauto.
Qed.

Lemma K4_result (g : string) :
forall s b r, free_of Re.newline b ->
              Re.lazy_dots (K4 g) b s = Some r ->
              fst (fst r) = Re.unrev g /\ free_of Re.newline (snd (fst r)).
Proof.
induction s as [|c s IH]; intros b r Hb Hs; cbn [Re.lazy_dots] in Hs; cbv beta in Hs.
- destruct (Re.lit "</a>" "") as [s9|]; cbn [mbind option_bind] in Hs; [|discriminate].
  injection Hs as <-. split; [reflexivity | now apply free_of_unrev].
- destruct (Re.lit "</a>" (String c s)) as [s9|]; cbn [mbind option_bind] in Hs.
  + injection Hs as <-. split; [reflexivity | now apply free_of_unrev].
  + destruct (Ascii.eqb_spec c Re.newline) as [E|Hc]; [discriminate|].
    apply (IH (String c b)); [now apply free_of_cons | exact Hs].
Qed.

Lemma K3_result (g : string) (s b : string) (r : string * string * string) :
Re.lazy_dots (K3 g) b s = Some r ->
fst (fst r) = Re.unrev g /\ free_of Re.newline (snd (fst r)).
Proof.
intros Hs. apply lazy_dots_inv in Hs as (a' & s' & Hk). cbv beta in Hk.
destruct (Re.lit ">" s') as [s7|]; cbn [mbind option_bind] in Hk; [|discriminate].
now apply (K4_result g s7 "" r).
Qed.

(** The first group stops at the first quote. *)
Lemma K2_result :
forall s a r, free_of dquote a -> free_of Re.newline a ->
              Re.lazy_dots K2 a s = Some r ->
              free_of dquote (fst (fst r)) /\ free_of Re.newline (fst (fst r))
              /\ free_of Re.newline (snd (fst r)).
Proof.
induction s as [|c s IH]; intros a r Hq Hn Hs; cbn [Re.lazy_dots] in Hs;
  cbv beta in Hs.
- change (Re.lit Re.quote "") with (@None string) in Hs.
  cbn [mbind option_bind] in Hs. discriminate.
- destruct (Re.lit Re.quote (String c s)) as [s5|] eqn:El;
    cbn [mbind option_bind] in Hs.
  + apply lit_quote_inv in El. injection El as -> <-.
    destruct (Re.lazy_dots (K3 a) "" s) as [r'|] eqn:E5.
    * injection Hs as <-. destruct (K3_result a s "" r' E5) as [-> Hg2].
      split; [now apply free_of_unrev|]. split; [now apply free_of_unrev | exact Hg2].
    * change (Ascii.eqb dquote Re.newline) with false in Hs. cbv iota in Hs.
      exfalso. apply (@not_is_Some_None (string * string * string)).
      rewrite <- E5. apply (K2_later a s (String dquote a)). rewrite Hs. eauto.
  + destruct (Ascii.eqb_spec c Re.newline) as [E|Hc]; [discriminate|].
    apply (IH (String c a)); [|now apply free_of_cons | exact Hs].
    apply free_of_cons; [|exact Hq].
    intros ->. vm_compute in El. discriminate.
Qed.

Lemma LINK_RE_match_groups (s g1 g2 rest : string) :
Re.LINK_RE_match s = Some (g1, g2, rest) ->
free_of dquote g1 /\ free_of Re.newline g1 /\ free_of Re.newline g2.
Proof.
unfold Re.LINK_RE_match. intros Hm.
destruct (Re.lit "<a" s) as [s1|]; cbn [mbind option_bind] in Hm; [|discriminate].
apply lazy_dots_inv in Hm as (a' & s2 & Hk). cbv beta in Hk.
destruct (Re.lit ("href=" +:+ Re.quote) s2) as [s3|];
  cbn [mbind option_bind] in Hk; [|discriminate].
apply (K2_result s3 "" (g1, g2, rest)); [reflexivity | reflexivity | exact Hk].
Qed.

Lemma finditer_matches (s : string) :
forall skip link,
  In link (Re.LINK_RE_finditer_from skip s) ->
  exists s' rest, Re.LINK_RE_match s' = Some (fst link, snd link, rest).
Proof.
induction s as [|c s IH]; intros skip link Hin.
- destruct skip; contradiction.
- destruct skip as [|k]; cbn [Re.LINK_RE_finditer_from] in Hin; [|eauto].
  destruct (Re.LINK_RE_match (String c s)) as [[[g1 g2] rest]|] eqn:Em; [|eauto].
  destruct Hin as [<-|Hin]; [eauto | eauto].
Qed.

End LinkGroups.

(** X15.  A URL that [LINK_RE] captures holds neither a double quote nor a
    line feed, and an anchor text it captures holds no line feed: the first
    group ends at the first quote behind the one that opens the attribute,
    and [.] never crosses a line.  So no URL that
    [_get_article_links] lists holds one of the two characters. *)
Theorem link_groups_are_clean (self : Article.t) (w : World) :
  Forall (fun link => free_of dquote (fst link) /\ free_of Re.newline (fst link)
                      /\ free_of Re.newline (snd link))
    (Re.LINK_RE_finditer (rendered_content (Article.row self)))
  /\ exists res w',
       Article._get_article_links self w = (Return res, w')
       /\ Forall (fun p => free_of dquote (fst p) /\ free_of Re.newline (fst p)) res.
Proof.
  assert (Forall (fun link => free_of dquote (fst link) /\ free_of Re.newline (fst link)
                              /\ free_of Re.newline (snd link))
            (Re.LINK_RE_finditer (rendered_content (Article.row self)))) as Hall.
  { apply Forall_forall. intros link Hin. apply list_elem_of_In in Hin.
    destruct (finditer_matches _ 0%nat link Hin) as (s' & rest & Hm).
    exact (LINK_RE_match_groups _ _ _ _ Hm). }
  split; [exact Hall|].
  destruct (links_returned self w) as (links & keys & w' & Hr & _ & He & _).
  eexists _, w'. split; [exact Hr|].
  apply Forall_forall. intros p Hp.
  apply list_elem_of_In, in_map_iff in Hp as (k & <- & Hk).
  apply list_elem_of_In, He, list_elem_of_In, in_map_iff in Hk as (link & <- & Hl).
  rewrite Forall_forall in Hall. apply list_elem_of_In in Hl.
  destruct (Hall link Hl) as (Hq & Hn & _). now split.
Qed.

Example link_url_ends_at_first_quote :
  Re.LINK_RE_finditer
    ("<a href=" +:+ Re.quote +:+ "u" +:+ Re.quote +:+ " title=" +:+ Re.quote +:+ "t"
       +:+ Re.quote +:+ ">x</a>")
  = [("u", "x")].
Proof. vm_compute. reflexivity. Qed.

(** ** The cache key of a link *)

Section LinkKey.

Local Abbreviation inked := (fun c => negb (Py.isspace c)).

Lemma digit_inked (n : N) : Py.isspace (Base64.digit n) = false.
Proof.
unfold Base64.digit. generalize (N.to_nat n). intros k.
do 64 (destruct k as [|k]; [reflexivity|]). reflexivity.
Qed.

Lemma b2a_inked_upto (n : nat) :
forall s, (String.length s <= n)%nat -> all_chars inked (Base64.b2a s) = true.
Proof.
induction n as [n IH] using lt_wf_ind. intros s Hlen.
destruct s as [|a [|b [|c r]]]; cbn [Base64.b2a all_chars];
  rewrite ?digit_inked; try reflexivity.
simpl. apply (IH (String.length r)); [simpl in Hlen; lia | lia].
Qed.

Lemma b2a_inked (s : string) : all_chars inked (Base64.b2a s) = true.
Proof. apply (b2a_inked_upto (String.length s)). lia. Qed.

Lemma b2a_head (s : string) :
s <> "" -> exists c t, Base64.b2a s = String c t /\ Py.isspace c = false.
Proof.
intros Hs. destruct s as [|a [|b [|c r]]]; [contradiction| | |];
  cbn [Base64.b2a]; eexists _, _; (split; [reflexivity | apply digit_inked]).
Qed.

Lemma all_chars_app (P : ascii -> bool) (a b : string) :
all_chars P (a +:+ b) = all_chars P a && all_chars P b.
Proof.
induction a as [|c a IH]; simpl; [reflexivity|]. now rewrite IH, andb_assoc.
Qed.

Lemma rstrip_inked_newline (x : string) :
all_chars inked x = true -> Py.rstrip (x +:+ String Re.newline "") = x.
Proof.
induction x as [|c x IH]; [reflexivity|].
cbn [all_chars]. intros Hx. apply andb_prop in Hx as [Hc Hx].
change (String c x +:+ String Re.newline "") with (String c (x +:+ String Re.newline "")).
cbn [Py.rstrip]. rewrite (IH Hx). apply negb_true_iff in Hc. rewrite Hc.
now destruct x.
Qed.

Lemma lstrip_head (c : ascii) (t : string) :
Py.isspace c = false -> Py.lstrip (String c t) = String c t.
Proof. intros Hc. simpl. now rewrite Hc. Qed.

Lemma rev_onto_rev_onto (s a b : string) :
Re.rev_onto (Re.rev_onto s a) b = Re.rev_onto a (s +:+ b).
Proof.
revert a. induction s as [|c s IH]; intros a; simpl; [reflexivity|].
now rewrite IH.
Qed.

Lemma append_nil_r (s : string) : s +:+ "" = s.
Proof.
induction s as [|c s IH]; [reflexivity|].
change (String c (s +:+ "") = String c s). congruence.
Qed.

Lemma unrev_rev_onto (s : string) : Re.unrev (Re.rev_onto s "") = s.
Proof. unfold Re.unrev. rewrite rev_onto_rev_onto. simpl. apply append_nil_r. Qed.

(** A text that fits into the room left makes one piece. *)
Lemma pieces_short (s : string) :
forall room cur, (1 <= String.length s <= room)%nat ->
                 Base64.pieces_from room cur s = [Re.unrev (Re.rev_onto s cur)].
Proof.
induction s as [|c s IH]; intros room cur Hlen; simpl in Hlen; [lia|].
cbn [Base64.pieces_from].
destruct room as [|[|r]]; [lia| |].
- destruct s; [reflexivity | simpl in Hlen; lia].
- destruct s as [|c' s]; [reflexivity|].
  rewrite IH by (simpl in *; lia). reflexivity.
Qed.

Lemma unrev_not_empty (c : ascii) (cur : string) : Re.unrev (String c cur) <> "".
Proof.
intros E. apply (f_equal (count_char c)) in E.
unfold Re.unrev in E. rewrite count_rev_onto in E. simpl in E.
rewrite Ascii.eqb_refl in E. lia.
Qed.

(** Every piece of a text holds a byte. *)
Lemma pieces_head (s : string) :
forall room cur, s <> "" ->
                 exists p ps, Base64.pieces_from room cur s = p :: ps /\ p <> "".
Proof.
induction s as [|c s IH]; intros room cur Hs; [contradiction|].
cbn [Base64.pieces_from].
destruct room as [|[|r]]; try (eexists _, _; split; [reflexivity|apply unrev_not_empty]).
destruct s as [|c' s].
- eexists _, _. split; [reflexivity | apply unrev_not_empty].
- apply IH. discriminate.
Qed.

(** A text longer than the room left makes two pieces at least. *)
Lemma pieces_long (s : string) :
forall room cur, (1 <= room < String.length s)%nat ->
                 exists p1 p2 ps,
                   Base64.pieces_from room cur s = p1 :: p2 :: ps
                   /\ p1 <> "" /\ p2 <> "".
Proof.
induction s as [|c s IH]; intros room cur Hlen; simpl in Hlen; [lia|].
cbn [Base64.pieces_from].
destruct room as [|[|r]]; [lia| |].
- destruct (pieces_head s Base64.MAXBINSIZE "") as (p2 & ps & -> & Hp2).
  { destruct s; [simpl in Hlen; lia | discriminate]. }
  eexists _, _, _. split; [reflexivity|]. split; [apply unrev_not_empty | exact Hp2].
- apply IH. lia.
Qed.

Lemma rstrip_keeps (a b : string) :
Py.rstrip b <> "" -> Py.rstrip (a +:+ b) = a +:+ Py.rstrip b.
Proof.
intros Hb. induction a as [|c a IH]; [reflexivity|].
change (String c a +:+ b) with (String c (a +:+ b)). cbn [Py.rstrip].
rewrite IH.
change (String c a +:+ Py.rstrip b) with (String c (a +:+ Py.rstrip b)).
destruct (a +:+ Py.rstrip b) eqn:E; [|reflexivity].
destruct a; simpl in E; [contradiction | discriminate].
Qed.

Lemma rstrip_head (c : ascii) (t : string) :
Py.isspace c = false -> Py.rstrip (String c t) <> "".
Proof.
intros Hc. cbn [Py.rstrip].
destruct (Py.rstrip t); [rewrite Hc|]; discriminate.
Qed.

Lemma count_char_app (c : ascii) (a b : string) :
count_char c (a +:+ b) = (count_char c a + count_char c b)%nat.
Proof. induction a as [|x a IH]; simpl; [reflexivity|]. rewrite IH. lia. Qed.

Lemma concat_two (x y : string) (l : list string) :
String.concat "" (x :: y :: l) = x +:+ String.concat "" (y :: l).
Proof. reflexivity. Qed.

Lemma concat_head (c : ascii) (t : string) (l : list string) :
exists t', String.concat "" (String c t :: l) = String c t'.
Proof. destruct l; eexists; reflexivity. Qed.

Lemma key_of_short (url : string) :
(String.length url <= Base64.MAXBINSIZE)%nat ->
Article.link_key url = "href_title_" +:+ Base64.b2a url.
Proof.
intros Hlen. unfold Article.link_key. f_equal.
unfold Base64.encodestring.
destruct url as [|c url]; [reflexivity|].
rewrite pieces_short by (simpl in *; lia).
rewrite unrev_rev_onto. cbn [map String.concat].
unfold Py.strip.
destruct (b2a_head (String c url)) as (d & t & Hd & Hsp); [discriminate|].
pose proof (b2a_inked (String c url)) as Hink.
rewrite Hd in *.
change (String d t +:+ String Re.newline "") with (String d (t +:+ String Re.newline "")).
rewrite lstrip_head by exact Hsp.
change (String d (t +:+ String Re.newline "")) with (String d t +:+ String Re.newline "").
now apply rstrip_inked_newline.
Qed.

Lemma key_of_long (url : string) :
(Base64.MAXBINSIZE < String.length url)%nat ->
(1 <= count_char Re.newline (Article.link_key url))%nat.
Proof.
intros Hlen. unfold Article.link_key. rewrite count_char_app.
unfold Base64.encodestring.
destruct (pieces_long url Base64.MAXBINSIZE "") as (p1 & p2 & ps & -> & Hp1 & Hp2).
{ unfold Base64.MAXBINSIZE in *. lia. }
rewrite !map_cons, concat_two.
destruct (b2a_head p1 Hp1) as (d1 & t1 & Hd1 & Hs1).
destruct (b2a_head p2 Hp2) as (d2 & t2 & Hd2 & Hs2).
rewrite Hd1, Hd2.
change (String d2 t2 +:+ String Re.newline "")
  with (String d2 (t2 +:+ String Re.newline "")).
destruct (concat_head d2 (t2 +:+ String Re.newline "")
            (map (fun piece => Base64.b2a piece +:+ String Re.newline "") ps))
  as (t & ->).
unfold Py.strip.
change ((String d1 t1 +:+ String Re.newline "") +:+ String d2 t)
  with (String d1 ((t1 +:+ String Re.newline "") +:+ String d2 t)).
rewrite lstrip_head by exact Hs1.
change (String d1 ((t1 +:+ String Re.newline "") +:+ String d2 t))
  with ((String d1 t1 +:+ String Re.newline "") +:+ String d2 t).
rewrite rstrip_keeps by (now apply rstrip_head).
rewrite !count_char_app. simpl. lia.
Qed.

End LinkKey.

(** X16.  The cache key of a URL of at most 57 bytes is ["href_title_"]
    followed by the base64 text of the URL, and holds no white space.  The
    key of a longer URL holds a line feed: [encodestring] breaks its output
    into lines and [strip] removes the last line feed only. *)
Theorem link_key_line_feeds (url : string) :
  ((String.length url <= 57)%nat ->
   Article.link_key url = "href_title_" +:+ Base64.b2a url
   /\ all_chars (fun c => negb (Py.isspace c)) (Article.link_key url) = true)
  /\ ((57 < String.length url)%nat ->
      (1 <= count_char Re.newline (Article.link_key url))%nat).
Proof.
  split.
  - intros Hlen. rewrite (key_of_short url Hlen). split; [reflexivity|].
    rewrite all_chars_app, b2a_inked. reflexivity.
  - apply key_of_long.
Qed.

Lemma link_key_line_feeds_witness :
  ((String.length "http://x/a" <= 57)%nat
   /\ Article.link_key "http://x/a" = "href_title_aHR0cDovL3gvYQ==")
  /\ ((57 < String.length long_url)%nat
      /\ (1 <= count_char Re.newline (Article.link_key long_url))%nat).
Proof.
  assert (String.length "http://x/a" <= 57)%nat as Hshort by (vm_compute; lia).
  assert (57 < String.length long_url)%nat as Hlong by (vm_compute; lia).
  split; (split; [assumption|]).
  - destruct (link_key_line_feeds "http://x/a") as [H _].
    rewrite (proj1 (H Hshort)). vm_compute. reflexivity.
  - destruct (link_key_line_feeds long_url) as [_ H]. exact (H Hlong).
Defined.
